(** * Event filters and calibration target of psychopy: a shallow embedding

    Two source files are embedded:
    - [psychopy/iohub/devices/eventfilters.py]: the moving-window filters
      ([MovingWindowFilter], [WeightedAverageFilter], [StampFilter]);
    - [psychopy/visual/target.py]: the calibration target ([TargetStim]).

    Numbers.  Python floats are embedded as rationals ([Q]) and the
    statements about them are about exact arithmetic; the weighted average,
    which numpy computes on float64 arrays, is embedded in doubles.
    Integers (window length, tap index, event type) are [Z].

    Exceptions.  A Python call either returns or raises, and in both cases
    the objects it mutated keep their new contents.  Stateful operations
    therefore return the new state together with an [outcome]. *)

From Stdlib Require Import List ZArith QArith Qfield Bool String Lia.
From Stdlib Require Import Permutation Sorted SpecFloat.
Import ListNotations.

Local Open Scope Z_scope.

(** ** Exceptions and outcomes *)

Inductive exn : Type :=
| ValueError (msg : string)
| TypeError
| AttributeError
| IndexError
| ZeroDivisionError.

Inductive outcome (A : Type) : Type :=
| Return (a : A)
| Raise (e : exn).

Arguments Return {A} a.
Arguments Raise {A} e.

Definition bind {A B} (m : outcome A) (k : A -> outcome B) : outcome B :=
  match m with
  | Return a => k a
  | Raise e => Raise e
  end.

Notation "x <- m ;; k" := (bind m (fun x => k))
  (at level 61, m at next level, right associativity).

(** ** Lists as Python sequences *)

(** The last [n] items of a list (all of it when it has fewer). *)
Definition lastn {A} (n : nat) (l : list A) : list A :=
  skipn (List.length l - n) l.

(** [l[i]] for a Python integer index: negative indices count from the end,
    [None] stands for [IndexError]. *)
Definition py_index {A} (l : list A) (i : Z) : option A :=
  let n := Z.of_nat (List.length l) in
  if 0 <=? i then nth_error l (Z.to_nat i)
  else if - n <=? i then nth_error l (Z.to_nat (n + i))
  else None.

(** [l[i] = v] for an index inside the list. *)
Fixpoint list_set {A} (l : list A) (i : nat) (v : A) : list A :=
  match l, i with
  | [], _ => []
  | _ :: t, O => v :: t
  | x :: t, S j => x :: list_set t j v
  end.

(** [l.index(x)]: position of the first occurrence, [None] for ValueError. *)
Fixpoint list_index (x : string) (l : list string) : option nat :=
  match l with
  | [] => None
  | y :: t => if String.eqb y x then Some O
              else option_map S (list_index x t)
  end.

Fixpoint Qsum (l : list Q) : Q :=
  match l with
  | [] => 0%Q
  | x :: t => (x + Qsum t)%Q
  end.

Definition Qltb (x y : Q) : bool := negb (Qle_bool y x).

(** ** The ring buffer *)

Module NumPyRingBuffer.

(** Modelled from the spec: [psychopy.iohub.util.NumPyRingBuffer] is not
    part of the embedded sources.  The spec describes it as a
    fixed-capacity circular buffer of numeric samples with
    append-overwrite-oldest, an is-full query, ordered read-out (oldest
    first) and clear; the capacity is set at construction and never
    changes. *)
Record t : Type := mk { max_size : nat; elements : list Q }.

Definition make (n : nat) : t := mk n [].

Definition append (b : t) (x : Q) : t :=
  mk (max_size b) (lastn (max_size b) (elements b ++ [x])).

Definition isFull (b : t) : bool :=
  (max_size b <=? List.length (elements b))%nat.

Definition getElements (b : t) : list Q := elements b.

Definition clear (b : t) : t := mk (max_size b) [].

(** [buffer.mean()]: arithmetic mean of the buffered samples. *)
Definition mean (b : t) : Q :=
  (Qsum (elements b) / inject_Z (Z.of_nat (List.length (elements b))))%Q.

End NumPyRingBuffer.

(** ** [collections.deque(maxlen=n)] *)

Module Deque.

Record t (A : Type) : Type := mk { maxlen : nat; items : list A }.
Arguments mk {A} maxlen items.
Arguments maxlen {A} _.
Arguments items {A} _.

Definition make {A} (n : nat) : t A := mk n [].

(** Appending to a full bounded deque discards the leftmost item. *)
Definition append {A} (d : t A) (x : A) : t A :=
  mk (maxlen d) (lastn (maxlen d) (items d ++ [x])).

Definition clear {A} (d : t A) : t A := mk (maxlen d) [].

End Deque.

(** ** Events, values and the object store *)

(** What a filter computes: a scalar for the mean and Stampe reductions, a
    one-dimensional array for [numpy.convolve], and [NotFinite] for an array
    whose entries are not numbers ([inf] or [nan], the outcome of dividing
    by a zero sum in numpy, which warns and does not raise). *)
Inductive value : Type :=
| Num (q : Q)
| Arr (a : list Q)
| NotFinite.

(** An iohub event in list form is a mutable Python list: filters hold
    references to it and [inplace] filtering writes through them.  Events
    live in a store addressed by reference. *)
Definition ref : Type := nat.
Definition store : Type := ref -> list value.

Definition store_set (h : store) (r : ref) (e : list value) : store :=
  fun r' => if Nat.eqb r' r then e else h r'.

(** The argument of [add]: a bare scalar or an event in list form (given by
    reference; an event passed as a tuple differs only in that it cannot be
    written in place). *)
Inductive sample : Type :=
| Bare (x : Q)
| Event (r : ref).

(** ** [MovingWindowFilter] *)

Inductive knot : Type :=
| Sym (s : string)
| Idx (i : Z).

Record kwargs : Type := mkKwargs {
  inplace : bool;
  knot_pos : knot;
  length : Z;
  event_type : option Z;
  event_field_name : option string
}.

Record MovingWindowFilter : Type := mkMWF {
  _inplace : bool;
  _active_index : Z;
  _event_field_index : option nat;
  _events : option (Deque.t sample);
  _filtering_buffer : NumPyRingBuffer.t
}.

Definition center_msg : string :=
  "MovingWindow length must be odd for a centered knot_pos.".
Definition symbol_msg : string :=
  "MovingWindow knot_pos must be an index between 0 - length-1, or a string constantin ['center','latest','oldest']".
Definition range_msg : string :=
  "MovingWindow knot_pos must be between 0 and length-1.".

(** The three messages of the configuration errors raised by [__init__]. *)
Definition knot_pos_error (e : exn) : Prop :=
  e = ValueError center_msg \/ e = ValueError symbol_msg \/
  e = ValueError range_msg.

(** Lines 149-163 of [__init__]: the tap index, or a configuration error. *)
Definition active_index_of (knot_pos : knot) (length : Z) : outcome Z :=
  match knot_pos with
  | Sym s =>
      if String.eqb s "center" && (length mod 2 =? 0)
      then Raise (ValueError center_msg)
      else if String.eqb s "center" then Return (length / 2)
      else if String.eqb s "latest" then Return 0
      else if String.eqb s "oldest" then Return (length - 1)
      else Raise (ValueError symbol_msg)
  | Idx k =>
      if (k <? 0) || (k >=? length) then Raise (ValueError range_msg)
      else Return k
  end.

(** Python truthiness of the two optional keyword arguments. *)
Definition truthy_type (t : option Z) : bool :=
  match t with Some n => negb (n =? 0) | None => false end.
Definition truthy_name (s : option string) : bool :=
  match s with Some n => negb (String.eqb n EmptyString) | None => false end.

Section Registry.

(** [EventConstants.getClass(event_type).CLASS_ATTRIBUTE_NAMES]: the field
    names of an event type, kept by the iohub package outside these two
    files.  [None] when the event type has no class. *)
Variable CLASS_ATTRIBUTE_NAMES : Z -> option (list string).

(** Lines 165-169: the field index and the event deque. *)
Definition event_fields (kw : kwargs)
  : outcome (option nat * option (Deque.t sample)) :=
  if truthy_type (event_type kw) && truthy_name (event_field_name kw) then
    match event_type kw, event_field_name kw with
    | Some ty, Some name =>
        match CLASS_ATTRIBUTE_NAMES ty with
        | None => Raise AttributeError
        | Some names =>
            match list_index name names with
            | None => Raise (ValueError "x not in list")
            | Some i =>
                if length kw <? 0
                then Raise (ValueError "maxlen must be non-negative")
                else Return (Some i, Some (Deque.make (Z.to_nat (length kw))))
            end
        end
    | _, _ => Return (None, None)
    end
  else Return (None, None).

Definition MovingWindowFilter_init (kw : kwargs) : outcome MovingWindowFilter :=
  idx <- active_index_of (knot_pos kw) (length kw) ;;
  ev <- event_fields kw ;;
  Return (mkMWF (inplace kw) idx (fst ev) (snd ev)
                (NumPyRingBuffer.make (Z.to_nat (length kw)))).

End Registry.

(** Functional updates of the two mutable attributes. *)
Definition with_buffer (m : MovingWindowFilter) (b : NumPyRingBuffer.t)
  : MovingWindowFilter :=
  mkMWF (_inplace m) (_active_index m) (_event_field_index m) (_events m) b.

Definition with_events (m : MovingWindowFilter) (d : Deque.t sample)
  : MovingWindowFilter :=
  mkMWF (_inplace m) (_active_index m) (_event_field_index m) (Some d)
        (_filtering_buffer m).

(** Subclasses inherit the windowing of [MovingWindowFilter] and override
    [filteredValue]; [add] calls [self.filteredValue()], so it is written
    once over this interface. *)
Class WindowFilter (F : Type) : Type := {
  base : F -> MovingWindowFilter;
  set_base : F -> MovingWindowFilter -> F;
  filteredValue : F -> outcome value;
  base_set_base : forall f m, base (set_base f m) = m
}.

Definition isFull {F} `{WindowFilter F} (self : F) : bool :=
  NumPyRingBuffer.isFull (_filtering_buffer (base self)).

(** The buffer holds numeric samples: storing anything else fails. *)
Definition as_sample (v : value) : outcome Q :=
  match v with
  | Num q => Return q
  | _ => Raise TypeError
  end.

(** What [add] returns: nothing, or the pair (tapped event, filtered
    value); the first component is [None] for bare scalars. *)
Definition add_result : Type := option (option sample * value).

Section Add.

Context {F : Type} `{WindowFilter F}.

Definition append_sample (self : F) (x : Q) : F :=
  set_base self
    (with_buffer (base self)
       (NumPyRingBuffer.append (_filtering_buffer (base self)) x)).

(** [return self._events[self._active_index], self.filteredValue()] *)
Definition tapped_pair (self : F) (d : Deque.t sample)
  : outcome add_result :=
  match py_index (Deque.items d) (_active_index (base self)) with
  | None => Raise IndexError
  | Some tap => fv <- filteredValue self ;; Return (Some (Some tap, fv))
  end.

(** [self._events[self._active_index][self._event_field_index] =
    self.filteredValue()]: the right-hand side is evaluated first, and the
    write goes through the reference into the store. *)
Definition write_inplace (self : F) (d : Deque.t sample) (i : nat)
    (h : store) : store * outcome unit :=
  match filteredValue self with
  | Raise e => (h, Raise e)
  | Return fv =>
      match py_index (Deque.items d) (_active_index (base self)) with
      | None => (h, Raise IndexError)
      | Some (Bare _) => (h, Raise TypeError)
      | Some (Event tap) =>
          if (i <? List.length (h tap))%nat
          then (store_set h tap (list_set (h tap) i fv), Return tt)
          else (h, Raise IndexError)
      end
  end.

Definition MovingWindowFilter_add (self : F) (h : store) (event : sample)
  : F * store * outcome add_result :=
  match event with
  | Event r =>
      match _event_field_index (base self) with
      | None => (self, h, Raise TypeError)
      | Some i =>
          match nth_error (h r) i with
          | None => (self, h, Raise IndexError)
          | Some v =>
              match as_sample v with
              | Raise e => (self, h, Raise e)
              | Return x =>
                  let self1 := append_sample self x in
                  match _events (base self1) with
                  | None => (self1, h, Raise AttributeError)
                  | Some d =>
                      let d' := Deque.append d event in
                      let self2 :=
                        set_base self1 (with_events (base self1) d') in
                      if isFull self2 then
                        if _inplace (base self2) then
                          match write_inplace self2 d' i h with
                          | (h', Raise e) => (self2, h', Raise e)
                          | (h', Return _) => (self2, h', tapped_pair self2 d')
                          end
                        else (self2, h, tapped_pair self2 d')
                      else (self2, h, Return None)
                  end
              end
          end
      end
  | Bare x =>
      let self1 := append_sample self x in
      if isFull self1 then
        (self1, h, fv <- filteredValue self1 ;; Return (Some (None, fv)))
      else (self1, h, Return None)
  end.

(** [clear]: an empty deque is falsy, so it is cleared only when it holds
    something, which leaves it empty either way. *)
Definition MovingWindowFilter_clear (self : F) : F :=
  let m := with_buffer (base self)
             (NumPyRingBuffer.clear (_filtering_buffer (base self))) in
  set_base self
    match _events m with
    | Some d => with_events m (Deque.clear d)
    | None => m
    end.

End Add.

(** The base class: the mean of the window. *)
#[export] Instance MovingWindowFilter_filter : WindowFilter MovingWindowFilter := {
  base := fun m => m;
  set_base := fun _ m => m;
  filteredValue := fun m =>
    Return (Num (NumPyRingBuffer.mean (_filtering_buffer m)));
  base_set_base := fun _ _ => eq_refl
}.

(** ** float64 *)














(** ** [WeightedAverageFilter] *)







(** ** [StampFilter] *)

#[warnings="-register-all"]
Inductive StampFilter : Type :=
| mkStamp (stamp_base : MovingWindowFilter) (_level : nat)
          (sub_filter : option StampFilter).

Definition stamp_base (f : StampFilter) : MovingWindowFilter :=
  match f with mkStamp m _ _ => m end.
Definition _level (f : StampFilter) : nat :=
  match f with mkStamp _ l _ => l end.
Definition sub_filter (f : StampFilter) : option StampFilter :=
  match f with mkStamp _ _ s => s end.

(** Lines 291-294: the three buffered samples, oldest first. *)
Definition stampe (window : list Q) : outcome value :=
  match firstn 3 window with
  | [e1; e2; e3] =>
      if negb (Qltb e1 e2 && Qltb e2 e3) || negb (Qltb e3 e2 && Qltb e2 e1)
      then Return (Num ((e1 + e3) / 2))
      else Return (Num e2)
  | _ => Raise (ValueError "need 3 values to unpack")
  end.

Fixpoint StampFilter_filteredValue (self : StampFilter) : outcome value :=
  match self with
  | mkStamp _ _ (Some sub) => StampFilter_filteredValue sub
  | mkStamp m _ None =>
      stampe (NumPyRingBuffer.getElements (_filtering_buffer m))
  end.

#[export] Instance StampFilter_filter : WindowFilter StampFilter := {
  base := stamp_base;
  set_base := fun f m => mkStamp m (_level f) (sub_filter f);
  filteredValue := StampFilter_filteredValue;
  base_set_base := fun _ _ => eq_refl
}.

(** [StampFilter.add]: a result of the sub filter is appended to this
    filter's own buffer and event deque, and then the inherited [add] runs
    on the same [event]. *)
Fixpoint StampFilter_add (self : StampFilter) (h : store) (event : sample)
  : StampFilter * store * outcome add_result :=
  match self with
  | mkStamp m lvl (Some sub) =>
      let '(sub', h1, sub_result) := StampFilter_add sub h event in
      let self1 := mkStamp m lvl (Some sub') in
      match sub_result with
      | Raise e => (self1, h1, Raise e)
      | Return None => MovingWindowFilter_add self1 h1 event
      | Return (Some (_, v)) =>
          match as_sample v with
          | Raise e => (self1, h1, Raise e)
          | Return x =>
              let self2 := append_sample self1 x in
              match _events (base self2) with
              | None => (self2, h1, Raise AttributeError)
              | Some d =>
                  MovingWindowFilter_add
                    (set_base self2
                       (with_events (base self2) (Deque.append d event)))
                    h1 event
              end
          end
      end
  | mkStamp _ _ None => MovingWindowFilter_add self h event
  end.

Section Constructors.

Variable CLASS_ATTRIBUTE_NAMES : Z -> option (list string).


(** Window of three with a centred tap; a level above one builds the sub
    filter one level lower, which never filters in place. *)
Fixpoint StampFilter_init (level : nat) (kw : kwargs)
  : outcome StampFilter :=
  let kw' := mkKwargs (inplace kw) (Sym "center") 3
               (event_type kw) (event_field_name kw) in
  m <- MovingWindowFilter_init CLASS_ATTRIBUTE_NAMES kw' ;;
  match level with
  | S (S _ as lower) =>
      sub <- StampFilter_init lower
               (mkKwargs false (Sym "center") 3
                  (event_type kw) (event_field_name kw)) ;;
      Return (mkStamp m level (Some sub))
  | _ => Return (mkStamp m level None)
  end.

End Constructors.

(** Feeding a sequence of samples, one [add] each. *)
Section Feed.

Context {F : Type} (add : F -> store -> sample -> F * store * outcome add_result).

Fixpoint feed (self : F) (h : store) (events : list sample)
  : F * store * list (outcome add_result) :=
  match events with
  | [] => (self, h, [])
  | e :: rest =>
      let '(self1, h1, r) := add self h e in
      let '(self2, h2, rs) := feed self1 h1 rest in
      (self2, h2, r :: rs)
  end.

End Feed.

(** ** The calibration target *)

Inductive color : Type :=
| Named (s : string)
| RGBA (r g b a : Q).

(** Modelled from the spec: [ShapeStim] ([psychopy/visual/shape.py]) is not
    part of the embedded sources.  The spec lists what the shape primitive
    exposes: geometry ([vertices]), [size], [lineWidth], [fillColor],
    [borderColor]; each attribute reads back what was last assigned.
    [size] is the pair (width, height). *)
Record ShapeStim : Type := mkShape {
  name : option string;
  vertices : string;
  size : Q * Q;
  pos : Q * Q;
  lineWidth : Q;
  units : string;
  fillColor : option color;
  borderColor : option color
}.

Definition set_vertices (s : ShapeStim) (v : string) : ShapeStim :=
  mkShape (name s) v (size s) (pos s) (lineWidth s) (units s)
          (fillColor s) (borderColor s).

Definition set_size (s : ShapeStim) (sz : Q * Q) : ShapeStim :=
  mkShape (name s) (vertices s) sz (pos s) (lineWidth s) (units s)
          (fillColor s) (borderColor s).

(** A [TargetStim] is itself the outer shape and owns the inner one. *)
Record TargetStim : Type := mkTarget {
  outer : ShapeStim;
  inner : ShapeStim;
  _style : option string;
  _scale : option Q
}.

Definition knownStyles : list string := ["circles"; "cross"]%string.

(** Getter: the stored style, [None] before the first assignment. *)
Definition style (t : TargetStim) : option string := _style t.

Definition set_style (t : TargetStim) (value : string) : TargetStim :=
  let t1 := mkTarget (outer t) (inner t) (Some value) (_scale t) in
  if String.eqb value "circles" then
    mkTarget (set_vertices (outer t1) "circle")
             (set_vertices (inner t1) "circle") (_style t1) (_scale t1)
  else if String.eqb value "cross" then
    mkTarget (set_vertices (outer t1) "circle")
             (set_vertices (inner t1) "cross") (_style t1) (_scale t1)
  else t1.

Definition scale (t : TargetStim) : Q :=
  match _scale t with
  | Some s => s
  | None => 1
  end.

(** [sum(self.size)/2] *)
Definition radius (t : TargetStim) : Q :=
  ((fst (size (outer t)) + snd (size (outer t))) / 2)%Q.

Definition set_radius (t : TargetStim) (value : Q) : TargetStim :=
  mkTarget (set_size (outer t) (value * 2, value * 2)%Q) (inner t)
           (_style t) (_scale t).

Definition innerRadius (t : TargetStim) : Q :=
  ((fst (size (inner t)) + snd (size (inner t))) / 2)%Q.

Definition set_innerRadius (t : TargetStim) (value : Q) : TargetStim :=
  mkTarget (outer t) (set_size (inner t) (value * 2, value * 2)%Q)
           (_style t) (_scale t).

(** The scale setter.  Dividing by a stored scale of zero raises before
    anything is assigned. *)
Definition set_scale (t : TargetStim) (newScale : Q) : outcome TargetStim :=
  let oldScale := scale t in
  if Qeq_bool oldScale 0 then Raise ZeroDivisionError
  else
    let t1 := set_radius t (radius t / oldScale * newScale) in
    let t2 := set_innerRadius t1 (innerRadius t1 / oldScale * newScale) in
    Return (mkTarget (outer t2) (inner t2) (_style t2) (Some newScale)).

Record target_args : Type := mkArgs {
  arg_name : option string;
  arg_style : string;
  arg_radius : Q;
  arg_fillColor : option color;
  arg_borderColor : option color;
  arg_lineWidth : Q;
  arg_innerRadius : Q;
  arg_innerFillColor : option color;
  arg_innerBorderColor : option color;
  arg_innerLineWidth : option Q;
  arg_pos : Q * Q;
  arg_units : option string
}.

(** The defaults of the signature, for a given name. *)
Definition default_args (nm : string) : target_args :=
  mkArgs (Some nm) "circles" (5 # 100)
         (Some (RGBA 1 1 1 (1 # 10))) (Some (Named "white")) 2
         (1 # 100) (Some (Named "red")) None None (0, 0)%Q (Some "height"%string).

(** [innerLineWidth or lineWidth]: [None] and zero are falsy. *)
Definition or_lineWidth (innerLineWidth : option Q) (lineWidth : Q) : Q :=
  match innerLineWidth with
  | Some w => if Qeq_bool w 0 then lineWidth else w
  | None => lineWidth
  end.

(** [units or ''] *)
Definition or_units (u : option string) : string :=
  match u with
  | Some s => s
  | None => EmptyString
  end.

(** [__init__]: [name + "Inner"] raises when the name is left at [None]. *)
Definition TargetStim_init (a : target_args) : outcome TargetStim :=
  let self :=
    mkShape (arg_name a) "circle"
      (arg_radius a * 2, arg_radius a * 2)%Q (arg_pos a)
      (arg_lineWidth a) (or_units (arg_units a))
      (arg_fillColor a) (arg_borderColor a) in
  match arg_name a with
  | None => Raise TypeError
  | Some nm =>
      let inner :=
        mkShape (Some (nm ++ "Inner")%string) "circle"
          (arg_innerRadius a * 2, arg_innerRadius a * 2)%Q (arg_pos a)
          (or_lineWidth (arg_innerLineWidth a) (arg_lineWidth a))
          (or_units (arg_units a))
          (arg_innerFillColor a) (arg_innerBorderColor a) in
      Return (set_style (mkTarget self inner None None) (arg_style a))
  end.

(** The values of the ioHub dictionary. *)
Inductive field_value : Type :=
| FNum (q : Q)
| FColor (c : option color).

(** [__iter__]: the key/value pairs in insertion order. *)
Definition TargetStim_iter (t : TargetStim) : list (string * field_value) :=
  [ ("outer_diameter", FNum (radius t * 2));
    ("outer_stroke_width", FNum (lineWidth (outer t)));
    ("outer_fill_color", FColor (fillColor (outer t)));
    ("outer_line_color", FColor (borderColor (outer t)));
    ("inner_diameter", FNum (innerRadius t * 2));
    ("inner_stroke_width", FNum (lineWidth (outer t)));
    ("inner_fill_color", FColor (fillColor (inner t)));
    ("inner_line_color", FColor (borderColor (inner t))) ]%string.

Fixpoint lookup (k : string) (kvs : list (string * field_value))
  : option field_value :=
  match kvs with
  | [] => None
  | (k', v) :: rest => if String.eqb k' k then Some v else lookup k rest
  end.

(** The buffered samples, oldest first, and the capacity of the window. *)
Definition window {F} `{WindowFilter F} (self : F) : list Q :=
  NumPyRingBuffer.getElements (_filtering_buffer (base self)).

Definition capacity {F} `{WindowFilter F} (self : F) : nat :=
  NumPyRingBuffer.max_size (_filtering_buffer (base self)).

(** ** What the spec says about [knot_pos] *)

(** The configurations the spec calls errors: a symbolic [knot_pos] outside
    center, latest, oldest; center with an even length; a numeric
    [knot_pos] outside [0, length). *)
Definition spec_knot_pos_invalid (k : knot) (len : Z) : Prop :=
  match k with
  | Sym s =>
      (s <> "center" /\ s <> "latest" /\ s <> "oldest")%string \/
      (s = "center"%string /\ len mod 2 = 0)
  | Idx i => i < 0 \/ len <= i
  end.

(** The tap index the spec gives for a valid configuration. *)
Definition spec_tap (k : knot) (len : Z) : Z :=
  match k with
  | Sym s =>
      if String.eqb s "center" then len / 2
      else if String.eqb s "latest" then 0
      else len - 1
  | Idx i => i
  end.

(** ** Concrete inputs *)

(** The state, the store and the outcomes after feeding a list of samples. *)
Section Fed.

Context {F : Type} (add : F -> store -> sample -> F * store * outcome add_result).

Definition fed (self : F) (h : store) (events : list sample) : F :=
  fst (fst (feed add self h events)).

Definition fed_store (self : F) (h : store) (events : list sample) : store :=
  snd (fst (feed add self h events)).

Definition outputs (self : F) (h : store) (events : list sample)
  : list (outcome add_result) :=
  snd (feed add self h events).

End Fed.

(** A registry without event classes, for filters fed with bare scalars. *)
Definition no_registry : Z -> option (list string) := fun _ => None.

Definition scalar_kwargs (k : knot) (len : Z) : kwargs :=
  mkKwargs false k len None None.

Definition empty_store : store := fun _ => [].

(** The field names of the mouse-move events listed in the module's driver,
    registered under their [type], 36. *)
Definition mouse_move_names : list string :=
  [ "experiment_id"; "session_id"; "device_id"; "event_id"; "type";
    "device_time"; "logged_time"; "time"; "confidence_interval"; "delay";
    "filter_id"; "display_id"; "button_state"; "button_id";
    "pressed_buttons"; "x_position"; "y_position"; "scroll_dx"; "scroll_x";
    "scroll_dy"; "scroll_y"; "modifiers"; "window_id" ]%string.

Definition mouse_registry (ty : Z) : option (list string) :=
  if ty =? 36 then Some mouse_move_names else None.

(** The first three events of the driver (times rounded to milliseconds). *)
Definition mouse_event (id : Z) (device_time time : Q) (x y : Z)
  : list value :=
  [ Num 0; Num 0; Num 0; Num (inject_Z id); Num 36; Num device_time;
    Num time; Num time; Num 0; Num 0; Num 0; Num 0; Num 0; Num 0; Num 0;
    Num (inject_Z x); Num (inject_Z y); Num 0; Num 0; Num 0; Num 0; Arr [];
    Num 984208 ].

Definition mouse_store : store :=
  fun r =>
    match r with
    | 0%nat => mouse_event 12 (139960228 # 1000) (4668 # 1000) (-84) 157
    | 1%nat => mouse_event 13 (139960228 # 1000) (4676 # 1000) (-85) 157
    | 2%nat => mouse_event 14 (139960243 # 1000) (4684 # 1000) (-87) 158
    | _ => []
    end.

Definition mouse_x_kwargs : kwargs :=
  mkKwargs false (Sym "center") 3 (Some 36) (Some "x_position"%string).

(** A target whose inner line width is given as zero. *)
Definition zero_inner_width_args : target_args :=
  mkArgs (Some "target"%string) "circles" (5 # 100)
         (Some (RGBA 1 1 1 (1 # 10))) (Some (Named "white")) 2
         (1 # 100) (Some (Named "red")) None (Some 0%Q) (0, 0)%Q
         (Some "height"%string).

(** ** The other moving-window filters *)

(** [PassThroughFilter]: window of one, tap at index 0, whatever the caller
    asked for; the value is the sample at index 0 of the buffer. *)
Record PassThroughFilter : Type := mkPTF { ptf_base : MovingWindowFilter }.

Definition PassThroughFilter_filteredValue (self : PassThroughFilter)
  : outcome value :=
  match NumPyRingBuffer.getElements (_filtering_buffer (ptf_base self)) with
  | x :: _ => Return (Num x)
  | [] => Raise IndexError
  end.

#[export] Instance PassThroughFilter_filter : WindowFilter PassThroughFilter := {
  base := ptf_base;
  set_base := fun _ m => mkPTF m;
  filteredValue := PassThroughFilter_filteredValue;
  base_set_base := fun _ _ => eq_refl
}.

(** Sorting, for [numpy.median]. *)
Fixpoint insert_sorted (x : Q) (l : list Q) : list Q :=
  match l with
  | [] => [x]
  | y :: t => if Qle_bool x y then x :: l else y :: insert_sorted x t
  end.

Fixpoint sort (l : list Q) : list Q :=
  match l with
  | [] => []
  | x :: t => insert_sorted x (sort t)
  end.

(** [numpy.median] of a one-dimensional array: the middle of the sorted
    samples, the mean of the two middle ones when their number is even, and
    [nan] (with a warning) for an empty array. *)
Definition median (a : list Q) : value :=
  let s := sort a in
  let n := List.length a in
  match a with
  | [] => NotFinite
  | _ =>
      if Nat.odd n then Num (nth (n / 2) s 0%Q)
      else Num ((nth (n / 2 - 1) s 0%Q + nth (n / 2) s 0%Q) / 2)
  end.

Record MedianFilter : Type := mkMedian { median_base : MovingWindowFilter }.

Definition MedianFilter_filteredValue (self : MedianFilter) : outcome value :=
  Return (median
            (NumPyRingBuffer.getElements (_filtering_buffer (median_base self)))).

#[export] Instance MedianFilter_filter : WindowFilter MedianFilter := {
  base := median_base;
  set_base := fun _ m => mkMedian m;
  filteredValue := MedianFilter_filteredValue;
  base_set_base := fun _ _ => eq_refl
}.

Section MoreConstructors.

Variable CLASS_ATTRIBUTE_NAMES : Z -> option (list string).

Definition PassThroughFilter_init (kw : kwargs) : outcome PassThroughFilter :=
  m <- MovingWindowFilter_init CLASS_ATTRIBUTE_NAMES
         (mkKwargs (inplace kw) (Idx 0) 1
            (event_type kw) (event_field_name kw)) ;;
  Return (mkPTF m).

Definition MedianFilter_init (kw : kwargs) : outcome MedianFilter :=
  m <- MovingWindowFilter_init CLASS_ATTRIBUTE_NAMES kw ;;
  Return (mkMedian m).

End MoreConstructors.

(** The filters of a Stampe cascade, outermost first. *)
Fixpoint cascade (f : StampFilter) : list MovingWindowFilter :=
  match f with
  | mkStamp m _ (Some sub) => m :: cascade sub
  | mkStamp m _ None => [m]
  end.

(** The numeric field [i] of the event [r], 0 when there is none. *)
Definition field_of (h : store) (i : nat) (r : ref) : Q :=
  match nth_error (h r) i with
  | Some (Num q) => q
  | _ => 0%Q
  end.

(** ** [DeviceEventFilter] *)

(** The base class raises [RuntimeError] where a subclass has to supply a
    member; everything else that can go wrong is an [exn]. *)
Inductive hub_outcome (A : Type) : Type :=
| Done (a : A)
| RuntimeError (msg : string)
| Failed (e : exn).

Arguments Done {A} a.
Arguments RuntimeError {A} msg.
Arguments Failed {A} e.

Record DeviceEventFilter : Type := mkDEF {
  _parent_device_type : option Z;
  _filter_key : option Z;
  _input_events : list ref;
  _output_events : list ref;
  _enabled : bool
}.

(** [__init__] without keyword arguments (keyword arguments become
    attributes of any name and are not modelled). *)
Definition DeviceEventFilter_init : DeviceEventFilter :=
  mkDEF None None [] [] false.

Definition enable (self : DeviceEventFilter) : bool := _enabled self.

Definition set_enable (self : DeviceEventFilter) (v : bool)
  : DeviceEventFilter :=
  mkDEF (_parent_device_type self) (_filter_key self)
        (_input_events self) (_output_events self) v.

Definition getInputEvents (self : DeviceEventFilter) : list ref :=
  _input_events self.

Definition clearInputEvents (self : DeviceEventFilter) : DeviceEventFilter :=
  mkDEF (_parent_device_type self) (_filter_key self)
        [] (_output_events self) (_enabled self).

Definition reset (self : DeviceEventFilter) : DeviceEventFilter :=
  mkDEF (_parent_device_type self) (_filter_key self) [] [] (_enabled self).

Definition with_outputs (self : DeviceEventFilter) (out : list ref)
  : DeviceEventFilter :=
  mkDEF (_parent_device_type self) (_filter_key self)
        (_input_events self) out (_enabled self).

(** [_removeOutputEvents]: hands the queue over and starts a new one. *)
Definition _removeOutputEvents (self : DeviceEventFilter)
  : DeviceEventFilter * list ref :=
  (with_outputs self [], _output_events self).

(** The members of the base class that a subclass has to replace. *)
Definition base_filter_id (self : DeviceEventFilter) : hub_outcome Z :=
  RuntimeError "filter_id property must be set by subclass.".

Definition base_input_event_types (self : DeviceEventFilter)
  : hub_outcome (list (Z * list Z)) :=
  RuntimeError "input_event_types property must be set by subclass.".

Section Hub.

(** [DeviceEvent.EVENT_ID_INDEX] and [DeviceEvent.EVENT_FILTER_ID_INDEX], and
    the event id counter [Computer._getNextEventID], all kept by the iohub
    package outside these two files. *)
Variables EVENT_ID_INDEX EVENT_FILTER_ID_INDEX : nat.
Variable counter : Type.
Variable _getNextEventID : counter -> Z * counter.

(** What the subclass supplies: the [filter_id] property and [process],
    which may change the filter, the events and the counter. *)
Variable filter_id : DeviceEventFilter -> hub_outcome Z.
Variable process :
  DeviceEventFilter -> store -> counter ->
  DeviceEventFilter * store * counter * hub_outcome unit.

(** [addOutputEvent]: the next event id is drawn and written first, then the
    filter id is read and written, then the event is queued. *)
Definition addOutputEvent (self : DeviceEventFilter) (h : store)
    (c : counter) (e : ref)
  : DeviceEventFilter * store * counter * hub_outcome unit :=
  let (id, c1) := _getNextEventID c in
  if (EVENT_ID_INDEX <? List.length (h e))%nat then
    let h1 := store_set h e
                (list_set (h e) EVENT_ID_INDEX (Num (inject_Z id))) in
    match filter_id self with
    | Done fid =>
        if (EVENT_FILTER_ID_INDEX <? List.length (h1 e))%nat then
          (with_outputs self (_output_events self ++ [e]),
           store_set h1 e
             (list_set (h1 e) EVENT_FILTER_ID_INDEX (Num (inject_Z fid))),
           c1, Done tt)
        else (self, h1, c1, Failed IndexError)
    | RuntimeError msg => (self, h1, c1, RuntimeError msg)
    | Failed x => (self, h1, c1, Failed x)
    end
  else (self, h, c1, Failed IndexError).

(** [_addInputEvent]: queue the event, then process. *)
Definition _addInputEvent (self : DeviceEventFilter) (h : store)
    (c : counter) (evt : ref)
  : DeviceEventFilter * store * counter * hub_outcome unit :=
  process
    (mkDEF (_parent_device_type self) (_filter_key self)
           (_input_events self ++ [evt]) (_output_events self)
           (_enabled self))
    h c.

(** Emitting a list of events one after the other, stopping at the first
    failure. *)
Fixpoint emit_all (self : DeviceEventFilter) (h : store) (c : counter)
    (es : list ref)
  : DeviceEventFilter * store * counter * hub_outcome unit :=
  match es with
  | [] => (self, h, c, Done tt)
  | e :: rest =>
      match addOutputEvent self h c e with
      | (self1, h1, c1, Done _) => emit_all self1 h1 c1 rest
      | failed => failed
      end
  end.

End Hub.

(** [process] of the base class. *)
Definition base_process {counter : Type} (self : DeviceEventFilter)
    (h : store) (c : counter)
  : DeviceEventFilter * store * counter * hub_outcome unit :=
  (self, h, c, RuntimeError "process method must be implemented by subclass.").

(** ** More of the calibration target *)

Definition set_fillColor (s : ShapeStim) (c : option color) : ShapeStim :=
  mkShape (name s) (vertices s) (size s) (pos s) (lineWidth s) (units s)
          c (borderColor s).

Definition set_borderColor (s : ShapeStim) (c : option color) : ShapeStim :=
  mkShape (name s) (vertices s) (size s) (pos s) (lineWidth s) (units s)
          (fillColor s) c.

(** The [foreColor] setter: each inner colour that is not [None] takes the
    value, fill colour first. *)
Definition set_foreColor (t : TargetStim) (value : option color)
  : TargetStim :=
  let inner1 :=
    match fillColor (inner t) with
    | Some _ => set_fillColor (inner t) value
    | None => inner t
    end in
  let inner2 :=
    match borderColor inner1 with
    | Some _ => set_borderColor inner1 value
    | None => inner1
    end in
  mkTarget (outer t) inner2 (_style t) (_scale t).

(** The assignments a script can make to a target. *)
Inductive target_op : Type :=
| SetStyle (value : string)
| SetScale (newScale : Q)
| SetRadius (value : Q)
| SetInnerRadius (value : Q)
| SetForeColor (value : option color).

(** One assignment; a scale assignment that raises leaves the target as it
    was. *)
Definition apply_op (t : TargetStim) (op : target_op) : TargetStim :=
  match op with
  | SetStyle v => set_style t v
  | SetScale f =>
      match set_scale t f with
      | Return t' => t'
      | Raise _ => t
      end
  | SetRadius r => set_radius t r
  | SetInnerRadius r => set_innerRadius t r
  | SetForeColor c => set_foreColor t c
  end.

Definition apply_ops (t : TargetStim) (ops : list target_op) : TargetStim :=
  fold_left apply_op ops t.

(** The styles assigned by a list of operations, in order. *)
Definition styles_of (ops : list target_op) : list string :=
  flat_map (fun op => match op with SetStyle v => [v] | _ => [] end) ops.

(** The last of the styles that is one of [knownStyles]. *)
Definition last_known (styles : list string) : option string :=
  fold_left
    (fun acc v =>
       if String.eqb v "circles" || String.eqb v "cross" then Some v
       else acc)
    styles None.

(** What construction fixes and [add] and [clear] never touch. *)
Definition configuration (m : MovingWindowFilter)
  : bool * Z * option nat * option nat * nat :=
  (_inplace m, _active_index m, _event_field_index m,
   option_map Deque.maxlen (_events m),
   NumPyRingBuffer.max_size (_filtering_buffer m)).

(** The contour of the inner shape that goes with a recognized style; a
    circle when no recognized style was ever assigned. *)
Definition inner_contour (known : option string) : string :=
  match known with
  | Some v => if String.eqb v "cross" then "cross" else "circle"
  | None => "circle"
  end.

(** * Properties *)

(** ** The Stampe reduction *)

Lemma Qltb_lt (x y : Q) : Qltb x y = true <-> (x < y)%Q.
Proof.
  unfold Qltb. rewrite negb_true_iff. split; intro Hxy.
  - apply Qnot_le_lt. intro Hle. apply Qle_bool_iff in Hle. congruence.
  - destruct (Qle_bool y x) eqn:E; [|reflexivity].
    apply Qle_bool_iff in E. exfalso. exact (Qlt_not_le _ _ Hxy E).
Qed.

(** Rising and falling exclude each other, so the test of line 292 always
    succeeds: a window of three is always averaged. *)
Lemma stampe_always_averages (e1 e2 e3 : Q) :
  stampe [e1; e2; e3] = Return (Num ((e1 + e3) / 2)).
Proof.
  unfold stampe. cbn [firstn].
  destruct (Qltb e1 e2) eqn:H12; cbn [andb negb orb]; [|reflexivity].
  destruct (Qltb e2 e3) eqn:H23; cbn [andb negb orb]; [|reflexivity].
  destruct (Qltb e3 e2) eqn:H32; cbn [andb negb orb]; [|reflexivity].
  apply Qltb_lt in H23, H32. exfalso.
  exact (Qlt_irrefl _ (Qlt_trans _ _ _ H23 H32)).
Qed.

(** C1.  A level-1 Stampe filter fed the strictly increasing samples 1, 2, 4
    emits nothing twice and then 5/2, the average of the first and third
    samples, and not the middle sample 2. *)
Theorem StampFilter_level1_increasing_window_is_averaged :
  exists f,
    StampFilter_init no_registry 1 (scalar_kwargs (Idx 0) 1) = Return f /\
    sub_filter f = None /\
    outputs StampFilter_add f empty_store [Bare 1; Bare 2; Bare 4] =
      [Return None; Return None; Return (Some (None, Num (5 # 2)))] /\
    ~ (5 # 2 == 2)%Q.
Proof.
  eexists. split; [reflexivity|]. split; [reflexivity|].
  split; [reflexivity|]. intro H. discriminate H.
Qed.

(** ** The radius of the calibration target *)

(** The getter adds the two halves of the size instead of averaging them. *)
Lemma radius_is_sum_of_halves (t : TargetStim) :
  (radius t == fst (size (outer t)) / 2 + snd (size (outer t)) / 2)%Q.
Proof. unfold radius. field. Qed.

(** Reading the radius back after setting it gives twice the value set. *)
Lemma radius_set_radius (t : TargetStim) (r : Q) :
  (radius (set_radius t r) == 2 * r)%Q.
Proof. unfold radius, set_radius. cbn. field. Qed.

Lemma innerRadius_set_innerRadius (t : TargetStim) (r : Q) :
  (innerRadius (set_innerRadius t r) == 2 * r)%Q.
Proof. unfold innerRadius, set_innerRadius. cbn. field. Qed.

(** C2.  On the target built with the default arguments, setting the radius
    to 1/20 and reading it back gives 1/10, not 1/20; the same holds for
    the inner radius. *)
Theorem radius_setter_getter_doubles :
  exists t,
    TargetStim_init (default_args "target") = Return t /\
    (radius (set_radius t (1 # 20)) == 1 # 10)%Q /\
    ~ (radius (set_radius t (1 # 20)) == 1 # 20)%Q /\
    (innerRadius (set_innerRadius t (1 # 20)) == 1 # 10)%Q /\
    ~ (innerRadius (set_innerRadius t (1 # 20)) == 1 # 20)%Q.
Proof.
  eexists. split; [reflexivity|].
  repeat split; try (vm_compute; reflexivity);
    intro H; vm_compute in H; discriminate H.
Qed.

(** The scale setter feeds the doubled reading of the getter back into the
    setter, so each radius is multiplied by twice the ratio of the scales. *)
Lemma set_scale_radius (t t' : TargetStim) (f : Q) :
  set_scale t f = Return t' ->
  (radius t' == 2 * (radius t / scale t * f))%Q /\
  (innerRadius t' == 2 * (innerRadius t / scale t * f))%Q /\
  scale t' = f.
Proof.
  unfold set_scale. destruct (Qeq_bool (scale t) 0) eqn:E; [discriminate|].
  intro H. injection H as <-. split; [|split].
  - apply radius_set_radius.
  - apply (innerRadius_set_innerRadius
             (set_radius t (radius t / scale t * f))).
  - reflexivity.
Qed.

(** C3.  On the target built with the default arguments (scale 1), setting
    the scale to 2 multiplies the radius and the inner radius read from the
    target by 4, not by 2. *)
Theorem set_scale_two_quadruples_radii :
  exists t t',
    TargetStim_init (default_args "target") = Return t /\
    scale t = 1%Q /\
    set_scale t 2 = Return t' /\
    (radius t' == 4 * radius t)%Q /\
    (innerRadius t' == 4 * innerRadius t)%Q /\
    ~ (radius t' == 2 * radius t)%Q /\
    ~ (innerRadius t' == 2 * innerRadius t)%Q /\
    ~ (radius t' == 2 * arg_radius (default_args "target"))%Q /\
    ~ (innerRadius t' == 2 * arg_innerRadius (default_args "target"))%Q.
Proof.
  eexists. eexists. split; [reflexivity|]. split; [reflexivity|].
  split; [reflexivity|].
  repeat split; try (vm_compute; reflexivity);
    intro H; vm_compute in H; discriminate H.
Qed.

(** ** The two-level Stampe filter *)

(** C4.  A level-2 Stampe filter on the x position of mouse-move events
    returns a filtered event on the third submission. *)
Theorem StampFilter_level2_emits_on_third_event :
  exists f,
    StampFilter_init mouse_registry 2 mouse_x_kwargs = Return f /\
    _level f = 2%nat /\
    outputs StampFilter_add f mouse_store
      [Event 0%nat; Event 1%nat; Event 2%nat] =
      [Return None; Return None;
       Return (Some (Some (Event 2%nat), Num (-171 # 2)))].
Proof.
  eexists. split; [reflexivity|]. split; reflexivity.
Qed.

(** With bare scalars the level-2 filter has no event deque: from the third
    submission on, [add] raises instead of returning. *)
Lemma StampFilter_level2_scalars_raise :
  exists f,
    StampFilter_init no_registry 2 (scalar_kwargs (Idx 0) 1) = Return f /\
    outputs StampFilter_add f empty_store
      [Bare 1; Bare 2; Bare 4; Bare 8; Bare 16] =
      [Return None; Return None; Raise AttributeError;
       Raise AttributeError; Raise AttributeError].
Proof. eexists. split; reflexivity. Qed.

(** ** The style of the calibration target *)

Lemma unknown_style_eqb (value : string) :
  ~ In value knownStyles ->
  String.eqb value "circles" = false /\ String.eqb value "cross" = false.
Proof.
  intro H. split; apply String.eqb_neq; intro E; apply H; subst; cbn; auto.
Qed.

(** C7 as stated fails: after an unrecognized style is assigned, the style
    read from the target is the unrecognized value. *)
Lemma unknown_style_is_stored :
  exists t,
    TargetStim_init (default_args "target") = Return t /\
    style t = Some "circles"%string /\
    ~ In "square"%string knownStyles /\
    style (set_style t "square") <> style t.
Proof.
  eexists. split; [reflexivity|]. split; [reflexivity|]. split.
  - cbn. intros [H|[H|[]]]; discriminate H.
  - cbn. discriminate.
Qed.

(** C7, amended.  Assigning a style outside [knownStyles] leaves the outer
    and inner shapes as they were, vertices included, and keeps the scale;
    the style read afterwards is the value assigned.  [set_style] is a total
    function: the assignment raises nothing. *)
Theorem set_style_unknown_keeps_geometry (t : TargetStim) (value : string) :
  ~ In value knownStyles ->
  outer (set_style t value) = outer t /\
  inner (set_style t value) = inner t /\
  vertices (outer (set_style t value)) = vertices (outer t) /\
  vertices (inner (set_style t value)) = vertices (inner t) /\
  _scale (set_style t value) = _scale t /\
  style (set_style t value) = Some value.
Proof.
  intro H. destruct (unknown_style_eqb value H) as [E1 E2].
  unfold set_style. rewrite E1, E2. cbn. repeat split.
Qed.

Lemma set_style_unknown_keeps_geometry_witness :
  exists t,
    TargetStim_init (default_args "target") = Return t /\
    vertices (outer (set_style t "square")) = "circle"%string /\
    vertices (inner (set_style t "square")) = "circle"%string /\
    style (set_style t "square") = Some "square"%string.
Proof.
  eexists. split; [reflexivity|].
  assert (Hk : ~ In "square"%string knownStyles).
  { cbn. intros [H|[H|[]]]; discriminate H. }
  match goal with
  | |- context [set_style ?t "square"] =>
      pose proof (set_style_unknown_keeps_geometry t "square"%string Hk)
        as (_ & _ & Ho & Hi & _ & Hs)
  end.
  split; [exact Ho|]. split; [exact Hi|exact Hs].
Defined.

(** ** The serialized stroke widths *)

(** Both stroke-width entries carry the line width of the outer shape. *)
Lemma iter_inner_stroke_width (t : TargetStim) :
  lookup "inner_stroke_width" (TargetStim_iter t)
    = Some (FNum (lineWidth (outer t))).
Proof. reflexivity. Qed.

(** The constructor leaves the line widths it gave to the two shapes. *)
Lemma init_lineWidths (a : target_args) (t : TargetStim) :
  TargetStim_init a = Return t ->
  lineWidth (outer t) = arg_lineWidth a /\
  lineWidth (inner t)
    = or_lineWidth (arg_innerLineWidth a) (arg_lineWidth a).
Proof.
  unfold TargetStim_init. destruct (arg_name a); [|discriminate].
  intro H. injection H as <-. unfold set_style.
  destruct (String.eqb (arg_style a) "circles");
    [|destruct (String.eqb (arg_style a) "cross")]; cbn; split; reflexivity.
Qed.

(** C10 as stated fails: with [innerLineWidth=0] and [lineWidth=2] the two
    arguments differ, yet the inner shape gets the line width 2 (zero is
    falsy), so the serialized inner stroke width is the inner shape's own
    line width. *)
Lemma zero_inner_width_is_reflected :
  exists t,
    TargetStim_init zero_inner_width_args = Return t /\
    arg_innerLineWidth zero_inner_width_args = Some 0%Q /\
    ~ (0 == arg_lineWidth zero_inner_width_args)%Q /\
    lineWidth (inner t) = arg_lineWidth zero_inner_width_args /\
    lookup "inner_stroke_width" (TargetStim_iter t)
      = Some (FNum (lineWidth (inner t))).
Proof.
  eexists. split; [reflexivity|]. split; [reflexivity|]. split.
  - intro H. vm_compute in H. discriminate H.
  - split; reflexivity.
Qed.

(** C10, amended.  For a target constructed with a non-zero [innerLineWidth]
    different from [lineWidth], the inner shape has the line width
    [innerLineWidth], and iterating the target yields under
    [inner_stroke_width] the line width of the outer shape, which is the
    [lineWidth] argument and differs from the inner shape's. *)
Theorem inner_stroke_width_is_outer_lineWidth
    (a : target_args) (t : TargetStim) (w : Q) :
  TargetStim_init a = Return t ->
  arg_innerLineWidth a = Some w ->
  ~ (w == 0)%Q ->
  ~ (w == arg_lineWidth a)%Q ->
  lookup "inner_stroke_width" (TargetStim_iter t)
    = Some (FNum (lineWidth (outer t))) /\
  lineWidth (outer t) = arg_lineWidth a /\
  lineWidth (inner t) = w /\
  ~ (lineWidth (inner t) == lineWidth (outer t))%Q.
Proof.
  intros Hinit Hw Hnz Hdiff.
  destruct (init_lineWidths a t Hinit) as [Ho Hi].
  rewrite Hw in Hi. unfold or_lineWidth in Hi.
  destruct (Qeq_bool w 0) eqn:E.
  - apply Qeq_bool_iff in E. contradiction.
  - split; [apply iter_inner_stroke_width|]. split; [exact Ho|].
    split; [exact Hi|]. rewrite Hi, Ho. exact Hdiff.
Qed.

Lemma inner_stroke_width_is_outer_lineWidth_witness :
  exists t,
    TargetStim_init
      (mkArgs (Some "target"%string) "cross" (5 # 100) None
              (Some (Named "white")) 2 (1 # 100) (Some (Named "red")) None
              (Some 5%Q) (0, 0)%Q None) = Return t /\
    lookup "inner_stroke_width" (TargetStim_iter t) = Some (FNum 2) /\
    lineWidth (inner t) = 5%Q.
Proof.
  eexists. split; [reflexivity|].
  match goal with
  | |- context [TargetStim_iter ?t] =>
      assert (Hw : ~ (5 == 0)%Q) by (intro H; vm_compute in H; discriminate H);
      assert (Hd : ~ (5 == 2)%Q) by (intro H; vm_compute in H; discriminate H);
      pose proof (inner_stroke_width_is_outer_lineWidth
                    (mkArgs (Some "target"%string) "cross" (5 # 100) None
                       (Some (Named "white")) 2 (1 # 100)
                       (Some (Named "red")) None (Some 5%Q) (0, 0)%Q None)
                    t 5%Q eq_refl eq_refl Hw Hd) as (Hl & _ & Hi & _)
  end.
  split; [exact Hl|exact Hi].
Defined.

(** ** Construction of the moving window *)

Lemma active_index_of_spec (k : knot) (len : Z) :
  match active_index_of k len with
  | Raise e => knot_pos_error e /\ spec_knot_pos_invalid k len
  | Return i => ~ spec_knot_pos_invalid k len /\ i = spec_tap k len
  end.
Proof.
  destruct k as [s|i]; unfold active_index_of, spec_knot_pos_invalid, spec_tap.
  - destruct (String.eqb_spec s "center") as [->|Hc]; cbn [andb].
    + destruct (Z.eqb_spec (len mod 2) 0) as [He|Ho].
      * split; [left; reflexivity|right; auto].
      * split; [|reflexivity]. intros [[H _]|[_ H]]; [apply H; reflexivity|auto].
    + destruct (String.eqb_spec s "latest") as [->|Hl].
      * split; [|reflexivity].
        intros [(_ & H & _)|[H _]]; [apply H; reflexivity|discriminate H].
      * destruct (String.eqb_spec s "oldest") as [->|Ho].
        -- split; [|reflexivity].
           intros [(_ & _ & H)|[H _]]; [apply H; reflexivity|discriminate H].
        -- split; [right; left; reflexivity|left; auto].
  - rewrite Z.geb_leb.
    destruct (Z.ltb_spec i 0) as [Hn|Hp]; cbn [orb].
    + split; [right; right; reflexivity|left; exact Hn].
    + destruct (Z.leb_spec len i) as [Hge|Hlt].
      * split; [right; right; reflexivity|right; exact Hge].
      * split; [lia|reflexivity].
Qed.

(** The failures of the field lookup and of the deque are other errors. *)
Lemma event_fields_error reg (kw : kwargs) (e : exn) :
  event_fields reg kw = Raise e -> ~ knot_pos_error e.
Proof.
  unfold event_fields.
  destruct (truthy_type (event_type kw) && truthy_name (event_field_name kw));
    [|discriminate].
  destruct (event_type kw) as [ty|]; [|discriminate].
  destruct (event_field_name kw) as [nm|]; [|discriminate].
  destruct (reg ty) as [names|].
  - destruct (list_index nm names); [destruct (length kw <? 0)|];
      try discriminate; intro H; injection H as <-;
      intros [H|[H|H]]; discriminate H.
  - intro H; injection H as <-. intros [H|[H|H]]; discriminate H.
Qed.

(** C8.  Construction raises one of the three [knot_pos] configuration
    errors exactly when the spec calls the [knot_pos] invalid: a symbolic
    value outside center, latest, oldest; center with an even length; a
    numeric value outside [0, length).  For a valid [knot_pos], a window
    length of at least one and a field lookup that succeeds, construction
    returns a filter whose tap index is length/2 rounded down for center, 0
    for latest, length-1 for oldest and the index itself for a numeric
    value. *)
Theorem MovingWindowFilter_init_knot_pos
    (reg : Z -> option (list string)) (kw : kwargs) :
  ((exists e, MovingWindowFilter_init reg kw = Raise e /\ knot_pos_error e)
   <-> spec_knot_pos_invalid (knot_pos kw) (length kw)) /\
  (~ spec_knot_pos_invalid (knot_pos kw) (length kw) ->
   1 <= length kw ->
   forall ev, event_fields reg kw = Return ev ->
   exists f, MovingWindowFilter_init reg kw = Return f /\
             _active_index f = spec_tap (knot_pos kw) (length kw)).
Proof.
  unfold MovingWindowFilter_init.
  pose proof (active_index_of_spec (knot_pos kw) (length kw)) as Hspec.
  destruct (active_index_of (knot_pos kw) (length kw)) as [i|e0];
    cbn [bind]; destruct Hspec as [H1 H2].
  - split.
    + split; [|intro H; contradiction].
      intros (e & He & Hk).
      destruct (event_fields reg kw) as [ev|e1] eqn:Eev; cbn [bind] in He;
        [discriminate He|].
      injection He as <-. exfalso. exact (event_fields_error _ _ _ Eev Hk).
    + intros _ _ ev ->. cbn [bind]. eexists. split; [reflexivity|exact H2].
  - split.
    + split; [intros _; exact H2|]. intros _. exists e0. split; [reflexivity|exact H1].
    + intro H; contradiction.
Qed.

Lemma MovingWindowFilter_init_knot_pos_witness :
  exists f,
    MovingWindowFilter_init mouse_registry
      (mkKwargs true (Sym "center") 5 (Some 36) (Some "y_position"%string))
      = Return f /\
    _active_index f = 2.
Proof.
  refine (proj2 (MovingWindowFilter_init_knot_pos mouse_registry
            (mkKwargs true (Sym "center") 5 (Some 36)
               (Some "y_position"%string)))
            _ _ (Some 16%nat, Some (Deque.make 5)) eq_refl).
  - cbn. intros [(H & _)|(_ & H)]; [apply H; reflexivity|discriminate H].
  - cbn. lia.
Defined.

(** ** The sliding window *)

Lemma lastn_length {A} (n : nat) (l : list A) :
  List.length (lastn n l) = Nat.min n (List.length l).
Proof. unfold lastn. rewrite length_skipn. lia. Qed.

Lemma lastn_app_lastn {A} (n : nat) (a b : list A) :
  lastn n (lastn n a ++ b) = lastn n (a ++ b).
Proof.
  unfold lastn. set (k := (List.length a - n)%nat).
  assert (E : skipn k a ++ b = skipn k (a ++ b)).
  { rewrite skipn_app. replace (k - List.length a)%nat with 0%nat by lia.
    reflexivity. }
  rewrite E, skipn_skipn. f_equal.
  rewrite length_skipn, !length_app. lia.
Qed.

Lemma lastn_all {A} (n : nat) (l : list A) :
  (List.length l <= n)%nat -> lastn n l = l.
Proof.
  intro H. unfold lastn.
  replace (List.length l - n)%nat with 0%nat by lia. reflexivity.
Qed.

(** Appending to a full, non-empty window drops its oldest sample. *)
Lemma lastn_slide {A} (n : nat) (l : list A) (x : A) :
  List.length l = n -> (0 < n)%nat -> lastn n (l ++ [x]) = tl l ++ [x].
Proof.
  intros Hl Hn. unfold lastn. rewrite length_app. cbn [List.length].
  replace (List.length l + 1 - n)%nat with 1%nat by lia.
  destruct l as [|y l]; [cbn in Hl; lia|reflexivity].
Qed.

Section Window.

Context {F : Type} `{WindowFilter F}.

Lemma base_append_sample (self : F) (x : Q) :
  base (append_sample self x)
    = with_buffer (base self)
        (NumPyRingBuffer.append (_filtering_buffer (base self)) x).
Proof. unfold append_sample. apply base_set_base. Qed.

Lemma window_append_sample (self : F) (x : Q) :
  window (append_sample self x) = lastn (capacity self) (window self ++ [x])
  /\ capacity (append_sample self x) = capacity self.
Proof.
  unfold window, capacity. rewrite base_append_sample. split; reflexivity.
Qed.

Lemma add_bare (self : F) (h : store) (x : Q) :
  MovingWindowFilter_add self h (Bare x)
    = (append_sample self x, h,
       if isFull (append_sample self x)
       then fv <- filteredValue (append_sample self x) ;;
            Return (Some (None, fv))
       else Return None).
Proof.
  unfold MovingWindowFilter_add.
  destruct (isFull (append_sample self x)); reflexivity.
Qed.

(** [add] appends at most one sample and does nothing else to the buffer. *)
Lemma add_buffer_cases (self : F) (h : store) (event : sample) :
  let self' := fst (fst (MovingWindowFilter_add self h event)) in
  (window self' = window self /\ capacity self' = capacity self) \/
  (exists x, window self' = lastn (capacity self) (window self ++ [x]) /\
             capacity self' = capacity self).
Proof.
  destruct event as [x|r].
  - rewrite add_bare. cbn. right. exists x. apply window_append_sample.
  - unfold MovingWindowFilter_add.
    destruct (_event_field_index (base self)) as [i|]; [|left; split; reflexivity].
    destruct (nth_error (h r) i) as [v|]; [|left; split; reflexivity].
    destruct (as_sample v) as [x|e]; [|left; split; reflexivity].
    right. exists x.
    destruct (_events (base (append_sample self x))) as [d|];
      [|cbn; apply window_append_sample].
    set (self2 := set_base _ _).
    assert (E : window self2 = window (append_sample self x) /\
                capacity self2 = capacity (append_sample self x)).
    { unfold self2, window, capacity. rewrite base_set_base. split; reflexivity. }
    destruct E as [Ew Ec].
    destruct (window_append_sample self x) as [Hw Hc].
    assert (G : window self2 = lastn (capacity self) (window self ++ [x]) /\
                capacity self2 = capacity self) by (split; congruence).
    destruct (isFull self2); [|exact G].
    destruct (_inplace (base self2)); [|exact G].
    destruct (write_inplace self2 (Deque.append d (Event r)) i h) as [h' [u|e]];
      exact G.
Qed.

(** What the sliding window keeps invariant: the capacity, and never more
    samples than the capacity. *)
Lemma add_keeps_capacity (self : F) (h : store) (event : sample) :
  (List.length (window self) <= capacity self)%nat ->
  let self' := fst (fst (MovingWindowFilter_add self h event)) in
  capacity self' = capacity self /\
  (List.length (window self') <= capacity self')%nat.
Proof.
  intros Hle self'.
  destruct (add_buffer_cases self h event) as [[Hw Hc]|(x & Hw & Hc)];
    fold self' in Hw, Hc; split; try exact Hc; rewrite Hw, Hc;
    [exact Hle|]. rewrite lastn_length. lia.
Qed.

Lemma fed_keeps_capacity (events : list sample) :
  forall (self : F) (h : store),
    (List.length (window self) <= capacity self)%nat ->
    capacity (fed MovingWindowFilter_add self h events) = capacity self /\
    (List.length (window (fed MovingWindowFilter_add self h events))
       <= capacity self)%nat.
Proof.
  induction events as [|e rest IH]; intros self h Hle; [split; [reflexivity|exact Hle]|].
  unfold fed. cbn [feed].
  destruct (MovingWindowFilter_add self h e) as [[self1 h1] r] eqn:E1.
  destruct (add_keeps_capacity self h e Hle) as [Hc Hl].
  rewrite E1 in Hc, Hl. cbn [fst] in Hc, Hl.
  destruct (IH self1 h1 Hl) as [Hc' Hl']. unfold fed in Hc', Hl'.
  destruct (feed MovingWindowFilter_add self1 h1 rest) as [[self2 h2] rs].
  cbn [fst] in *. split; [congruence|]. rewrite <- Hc. exact Hl'.
Qed.

(** Once full, always full; and a sample appended to a full window pushes
    the oldest one out. *)
Lemma add_full_stays_full (self : F) (h : store) (event : sample) :
  (List.length (window self) <= capacity self)%nat ->
  (0 < capacity self)%nat ->
  isFull self = true ->
  let self' := fst (fst (MovingWindowFilter_add self h event)) in
  isFull self' = true /\
  (window self' = window self \/
   exists x, window self' = tl (window self) ++ [x]).
Proof.
  intros Hle Hpos Hfull self'.
  assert (Hlen : List.length (window self) = capacity self).
  { unfold isFull, NumPyRingBuffer.isFull in Hfull.
    apply Nat.leb_le in Hfull. unfold window, capacity in *.
    unfold NumPyRingBuffer.getElements in *. lia. }
  unfold isFull, NumPyRingBuffer.isFull.
  fold (capacity self'). change (NumPyRingBuffer.elements
    (_filtering_buffer (base self'))) with (window self').
  destruct (add_buffer_cases self h event) as [[Hw Hc]|(x & Hw & Hc)];
    fold self' in Hw, Hc; rewrite Hw, Hc.
  - split; [apply Nat.leb_le; lia|left; reflexivity].
  - split.
    + apply Nat.leb_le. rewrite lastn_length, length_app. cbn. lia.
    + right. exists x. apply lastn_slide; assumption.
Qed.

End Window.

Lemma fed_bare_window {F : Type} `{WindowFilter F} (past : list Q) :
  forall (self : F) (h : store),
    (List.length (window self) <= capacity self)%nat ->
    window (fed MovingWindowFilter_add self h (map Bare past))
      = lastn (capacity self) (window self ++ past) /\
    capacity (fed MovingWindowFilter_add self h (map Bare past))
      = capacity self /\
    fed_store MovingWindowFilter_add self h (map Bare past) = h.
Proof.
  induction past as [|x rest IH]; intros self h Hle.
  - cbn. rewrite app_nil_r, lastn_all by exact Hle. repeat split.
  - unfold fed, fed_store. cbn [map feed]. rewrite add_bare.
    destruct (window_append_sample self x) as [Hw Hc].
    assert (Hle1 : (List.length (window (append_sample self x))
                      <= capacity (append_sample self x))%nat).
    { rewrite Hw, Hc, lastn_length. lia. }
    destruct (IH (append_sample self x) h Hle1) as (IHw & IHc & IHs).
    unfold fed, fed_store in IHw, IHc, IHs.
    destruct (feed MovingWindowFilter_add (append_sample self x) h
                (map Bare rest)) as [[self2 h2] rs].
    cbn [fst snd] in *. rewrite IHw, IHc, Hw, Hc, lastn_app_lastn.
    rewrite <- app_assoc. repeat split. exact IHs.
Qed.

Lemma MovingWindowFilter_init_buffer reg (kw : kwargs) (f : MovingWindowFilter) :
  MovingWindowFilter_init reg kw = Return f ->
  _filtering_buffer f = NumPyRingBuffer.make (Z.to_nat (length kw)).
Proof.
  unfold MovingWindowFilter_init.
  destruct (active_index_of (knot_pos kw) (length kw)); [|discriminate].
  cbn [bind]. destruct (event_fields reg kw); [|discriminate].
  cbn [bind]. intro H. injection H as <-. reflexivity.
Qed.

(** C5.  A mean filter of window length L >= 1 is fed bare scalars.  On the
    submission of [x] after the samples [past], [add] returns nothing while
    fewer than L samples have been submitted, and otherwise returns the pair
    (None, v), v being the sum of the last L samples submitted divided by
    L. *)
Theorem MovingWindowFilter_add_mean
    (reg : Z -> option (list string)) (kw : kwargs)
    (f : MovingWindowFilter) (h : store) (past : list Q) (x : Q) :
  1 <= length kw ->
  MovingWindowFilter_init reg kw = Return f ->
  snd (MovingWindowFilter_add
         (fed MovingWindowFilter_add f h (map Bare past))
         (fed_store MovingWindowFilter_add f h (map Bare past))
         (Bare x))
  = if (S (List.length past) <? Z.to_nat (length kw))%nat
    then Return None
    else Return (Some (None,
           Num (Qsum (lastn (Z.to_nat (length kw)) (past ++ [x]))
                / inject_Z (length kw)))).
Proof.
  intros HL Hinit.
  pose proof (MovingWindowFilter_init_buffer reg kw f Hinit) as Hbuf.
  set (n := Z.to_nat (length kw)) in *.
  assert (Hw0 : window f = [] /\ capacity f = n).
  { unfold window, capacity. cbn. rewrite Hbuf. split; reflexivity. }
  destruct Hw0 as [Hw0 Hc0].
  assert (Hle0 : (List.length (window f) <= capacity f)%nat)
    by (rewrite Hw0; cbn; lia).
  destruct (fed_bare_window past f h Hle0) as (Hw & Hc & _).
  rewrite Hw0, Hc0 in Hw. cbn [app] in Hw. rewrite Hc0 in Hc.
  rewrite add_bare. cbn [snd].
  set (f1 := fed MovingWindowFilter_add f h (map Bare past)) in *.
  destruct (window_append_sample f1 x) as [Hw1 Hc1].
  rewrite Hw, Hc, lastn_app_lastn in Hw1. rewrite Hc in Hc1.
  assert (Hfull : isFull (append_sample f1 x)
                  = negb (S (List.length past) <? n)%nat).
  { unfold isFull, NumPyRingBuffer.isFull.
    fold (capacity (append_sample f1 x)).
    change (NumPyRingBuffer.elements
              (_filtering_buffer (base (append_sample f1 x))))
      with (window (append_sample f1 x)).
    rewrite Hw1, Hc1, lastn_length, length_app. cbn [List.length].
    destruct (Nat.ltb_spec (S (List.length past)) n);
      cbn [negb]; [apply Nat.leb_gt|apply Nat.leb_le]; lia. }
  rewrite Hfull.
  destruct (Nat.ltb_spec (S (List.length past)) n) as [Hlt|Hge];
    cbn [negb]; [reflexivity|].
  cbn [filteredValue MovingWindowFilter_filter bind].
  unfold NumPyRingBuffer.mean.
  change (NumPyRingBuffer.elements (_filtering_buffer (append_sample f1 x)))
    with (window (append_sample f1 x)).
  rewrite Hw1, lastn_length, length_app. cbn [List.length].
  replace (Z.of_nat (Nat.min n (List.length past + 1))) with (length kw)
    by (unfold n in *; lia).
  reflexivity.
Qed.

Lemma MovingWindowFilter_add_mean_witness :
  snd (MovingWindowFilter_add
         (fed MovingWindowFilter_add
            (mkMWF false 1 None None (NumPyRingBuffer.make 3))
            empty_store (map Bare [10; 20]%Q))
         (fed_store MovingWindowFilter_add
            (mkMWF false 1 None None (NumPyRingBuffer.make 3))
            empty_store (map Bare [10; 20]%Q))
         (Bare 30))
  = Return (Some (None, Num ((10 + (20 + (30 + 0))) / 3))).
Proof.
  refine (MovingWindowFilter_add_mean no_registry
            (scalar_kwargs (Sym "center") 3)
            (mkMWF false 1 None None (NumPyRingBuffer.make 3))
            empty_store [10; 20]%Q 30%Q _ eq_refl).
  cbn. lia.
Defined.

(** C6.  For a filter constructed with a window length of at least one and
    fed any sequence of samples, the capacity of the buffer is the length
    given at construction before and after every [add]; and if the window
    is full before an [add] it is full after it, holding either the same
    samples ([add] raised before appending) or the same samples without the
    oldest, followed by the new one. *)
Theorem MovingWindowFilter_full_stays_full
    (reg : Z -> option (list string)) (kw : kwargs)
    (f : MovingWindowFilter) (h : store)
    (events : list sample) (event : sample) :
  1 <= length kw ->
  MovingWindowFilter_init reg kw = Return f ->
  let f1 := fed MovingWindowFilter_add f h events in
  let h1 := fed_store MovingWindowFilter_add f h events in
  let f2 := fst (fst (MovingWindowFilter_add f1 h1 event)) in
  capacity f1 = Z.to_nat (length kw) /\
  capacity f2 = Z.to_nat (length kw) /\
  (isFull f1 = true ->
   isFull f2 = true /\
   (window f2 = window f1 \/ exists x, window f2 = tl (window f1) ++ [x]) /\
   (forall x, event = Bare x -> window f2 = tl (window f1) ++ [x])).
Proof.
  intros HL Hinit f1 h1 f2.
  pose proof (MovingWindowFilter_init_buffer reg kw f Hinit) as Hbuf.
  assert (Hw0 : window f = [] /\ capacity f = Z.to_nat (length kw)).
  { unfold window, capacity. cbn. rewrite Hbuf. split; reflexivity. }
  destruct Hw0 as [Hw0 Hc0].
  assert (Hle0 : (List.length (window f) <= capacity f)%nat)
    by (rewrite Hw0; cbn; lia).
  destruct (fed_keeps_capacity events f h Hle0) as [Hc1 Hl1].
  fold f1 in Hc1, Hl1. rewrite <- Hc1 in Hl1.
  destruct (add_keeps_capacity f1 h1 event Hl1) as [Hc2 _]. fold f2 in Hc2.
  split; [congruence|]. split; [congruence|].
  intro Hfull.
  assert (Hpos : (0 < capacity f1)%nat) by lia.
  destruct (add_full_stays_full f1 h1 event Hl1 Hpos Hfull) as [Hf2 Hw2].
  fold f2 in Hf2, Hw2. split; [exact Hf2|]. split; [exact Hw2|].
  intros x ->. unfold f2. rewrite add_bare. cbn [fst].
  destruct (window_append_sample f1 x) as [Hw _]. rewrite Hw.
  apply lastn_slide; [|exact Hpos].
  unfold isFull, NumPyRingBuffer.isFull in Hfull. apply Nat.leb_le in Hfull.
  unfold window, capacity, NumPyRingBuffer.getElements in *. lia.
Qed.

Lemma MovingWindowFilter_full_stays_full_witness :
  isFull (fst (fst (MovingWindowFilter_add
            (fed MovingWindowFilter_add
               (mkMWF false 0 None None (NumPyRingBuffer.make 2))
               empty_store [Bare 1; Bare 2])
            (fed_store MovingWindowFilter_add
               (mkMWF false 0 None None (NumPyRingBuffer.make 2))
               empty_store [Bare 1; Bare 2])
            (Bare 3)))) = true /\
  window (fst (fst (MovingWindowFilter_add
            (fed MovingWindowFilter_add
               (mkMWF false 0 None None (NumPyRingBuffer.make 2))
               empty_store [Bare 1; Bare 2])
            (fed_store MovingWindowFilter_add
               (mkMWF false 0 None None (NumPyRingBuffer.make 2))
               empty_store [Bare 1; Bare 2])
            (Bare 3)))) = [2%Q; 3%Q].
Proof.
  assert (HL : 1 <= length (scalar_kwargs (Sym "latest") 2)) by (cbn; lia).
  destruct (MovingWindowFilter_full_stays_full no_registry
              (scalar_kwargs (Sym "latest") 2)
              (mkMWF false 0 None None (NumPyRingBuffer.make 2))
              empty_store [Bare 1; Bare 2] (Bare 3) HL eq_refl)
    as (_ & _ & Hfull).
  destruct (Hfull eq_refl) as (Hf & _ & Hb).
  split; [exact Hf|exact (Hb 3%Q eq_refl)].
Defined.

(** ** The weighted average *)

Section Output.

Context {F : Type} `{WindowFilter F}.




End Output.

(** * Further properties *)

(** ** Feeding bare scalars to a new filter *)

Lemma lastn_one {A} (l : list A) (x : A) : lastn 1 (l ++ [x]) = [x].
Proof.
  unfold lastn. rewrite length_app. cbn [List.length].
  replace (List.length l + 1 - 1)%nat with (List.length l) by lia.
  rewrite skipn_app, skipn_all, Nat.sub_diag. reflexivity.
Qed.

Lemma lastn_In {A} (n : nat) (l : list A) (x : A) :
  In x (lastn n l) -> In x l.
Proof.
  unfold lastn. intro H.
  rewrite <- (firstn_skipn (List.length l - n) l). apply in_or_app. auto.
Qed.

(** The state and the outcome of one more bare sample, for a filter of any
    class whose window was empty before the samples [past]. *)
Lemma add_bare_from_empty {F : Type} `{WindowFilter F}
    (self : F) (h : store) (past : list Q) (x : Q) :
  window self = [] ->
  let n := capacity self in
  let self1 := fed MovingWindowFilter_add self h (map Bare past) in
  let h1 := fed_store MovingWindowFilter_add self h (map Bare past) in
  let self2 := fst (fst (MovingWindowFilter_add self1 h1 (Bare x))) in
  window self2 = lastn n (past ++ [x]) /\
  capacity self2 = n /\
  snd (MovingWindowFilter_add self1 h1 (Bare x))
    = (if (S (List.length past) <? n)%nat then Return None
       else fv <- filteredValue self2 ;; Return (Some (None, fv))) /\
  ((S (List.length past) <? n)%nat = false ->
   List.length (window self2) = n).
Proof.
  intros Hw0 n self1 h1 self2.
  assert (Hle0 : (List.length (window self) <= capacity self)%nat)
    by (rewrite Hw0; cbn; lia).
  destruct (fed_bare_window past self h Hle0) as (Hw & Hc & _).
  fold self1 in Hw, Hc. rewrite Hw0 in Hw. cbn [app] in Hw. fold n in Hw, Hc.
  unfold self2. rewrite add_bare. cbn [fst snd].
  destruct (window_append_sample self1 x) as [Hw1 Hc1].
  rewrite Hw, Hc, lastn_app_lastn in Hw1. rewrite Hc in Hc1.
  assert (Hlen : List.length (window (append_sample self1 x))
                 = Nat.min n (S (List.length past))).
  { rewrite Hw1, lastn_length, length_app. cbn [List.length]. f_equal. lia. }
  assert (Hfull : isFull (append_sample self1 x)
                  = negb (S (List.length past) <? n)%nat).
  { unfold isFull, NumPyRingBuffer.isFull.
    fold (capacity (append_sample self1 x)).
    change (NumPyRingBuffer.elements
              (_filtering_buffer (base (append_sample self1 x))))
      with (window (append_sample self1 x)).
    rewrite Hlen, Hc1.
    destruct (Nat.ltb_spec (S (List.length past)) n);
      cbn [negb]; [apply Nat.leb_gt|apply Nat.leb_le]; lia. }
  split; [exact Hw1|]. split; [exact Hc1|]. split.
  - rewrite Hfull. destruct (S (List.length past) <? n)%nat; reflexivity.
  - intro Hge. apply Nat.ltb_ge in Hge. rewrite Hlen. lia.
Qed.

(** ** The pass-through filter *)

Lemma PassThroughFilter_init_inv reg (kw : kwargs) (f : PassThroughFilter) :
  PassThroughFilter_init reg kw = Return f ->
  window f = [] /\ capacity f = 1%nat /\ _active_index (base f) = 0.
Proof.
  unfold PassThroughFilter_init.
  destruct (MovingWindowFilter_init reg _) as [m|e] eqn:E; [|discriminate].
  cbn [bind]. intro H. injection H as <-.
  pose proof (MovingWindowFilter_init_buffer _ _ _ E) as Hb.
  unfold MovingWindowFilter_init in E. cbn in E.
  destruct (event_fields reg _) as [ev|]; [|discriminate].
  cbn in E. injection E as <-.
  unfold window, capacity. cbn. repeat split.
Qed.

(** X1.  A pass-through filter can be built from any keyword arguments that
    name no event type, whatever [knot_pos] and [length] they carry, and it
    returns every bare sample it is given, unchanged, from the first one
    on. *)
Theorem PassThroughFilter_returns_its_input
    (reg : Z -> option (list string)) (kw : kwargs) :
  event_type kw = None ->
  exists f,
    PassThroughFilter_init reg kw = Return f /\
    forall (h : store) (past : list Q) (x : Q),
      snd (MovingWindowFilter_add
             (fed MovingWindowFilter_add f h (map Bare past))
             (fed_store MovingWindowFilter_add f h (map Bare past))
             (Bare x))
      = Return (Some (None, Num x)).
Proof.
  intro Hty.
  assert (Hinit : exists f, PassThroughFilter_init reg kw = Return f).
  { unfold PassThroughFilter_init, MovingWindowFilter_init, event_fields.
    cbn. rewrite Hty. cbn. eexists. reflexivity. }
  destruct Hinit as [f Hinit]. exists f. split; [exact Hinit|].
  intros h past x.
  destruct (PassThroughFilter_init_inv reg kw f Hinit) as (Hw0 & Hc0 & _).
  destruct (add_bare_from_empty f h past x Hw0) as (Hw & _ & Hout & _).
  rewrite Hc0 in Hw, Hout. rewrite Hout.
  replace (S (List.length past) <? 1)%nat with false
    by (symmetry; apply Nat.ltb_ge; lia).
  cbn [filteredValue PassThroughFilter_filter].
  unfold PassThroughFilter_filteredValue.
  unfold window in Hw. cbn [base PassThroughFilter_filter] in Hw.
  rewrite Hw, lastn_one. reflexivity.
Qed.

Lemma PassThroughFilter_returns_its_input_witness :
  exists f,
    PassThroughFilter_init no_registry
      (scalar_kwargs (Sym "nowhere") (-5)) = Return f /\
    snd (MovingWindowFilter_add
           (fed MovingWindowFilter_add f empty_store (map Bare [7; 8]%Q))
           (fed_store MovingWindowFilter_add f empty_store
              (map Bare [7; 8]%Q))
           (Bare 9))
    = Return (Some (None, Num 9)).
Proof.
  destruct (PassThroughFilter_returns_its_input no_registry
              (scalar_kwargs (Sym "nowhere") (-5)) eq_refl) as (f & Hf & Hout).
  exists f. split; [exact Hf|]. exact (Hout empty_store [7; 8]%Q 9%Q).
Defined.

(** ** The tap index *)

Lemma active_index_of_range (k : knot) (len i : Z) :
  1 <= len -> active_index_of k len = Return i -> 0 <= i < len.
Proof.
  intros HL E. unfold active_index_of in E. destruct k as [s|k].
  - destruct (String.eqb s "center").
    + destruct (Z.eqb_spec (len mod 2) 0); cbn [andb] in E; [discriminate|].
      injection E as <-. split; [apply Z.div_pos; lia|].
      apply Z.div_lt; lia.
    + cbn [andb] in E. destruct (String.eqb s "latest");
        [injection E as <-; lia|].
      destruct (String.eqb s "oldest"); [injection E as <-; lia|discriminate].
  - rewrite Z.geb_leb in E.
    destruct (Z.ltb_spec k 0); cbn [orb] in E; [discriminate|].
    destruct (Z.leb_spec len k); [discriminate|].
    injection E as <-. lia.
Qed.

(** What construction returns, field by field. *)
Lemma MovingWindowFilter_init_fields reg (kw : kwargs)
    (f : MovingWindowFilter) :
  MovingWindowFilter_init reg kw = Return f ->
  exists i ev,
    active_index_of (knot_pos kw) (length kw) = Return i /\
    event_fields reg kw = Return ev /\
    f = mkMWF (inplace kw) i (fst ev) (snd ev)
          (NumPyRingBuffer.make (Z.to_nat (length kw))).
Proof.
  unfold MovingWindowFilter_init.
  destruct (active_index_of (knot_pos kw) (length kw)) as [i|];
    [|discriminate].
  cbn [bind]. destruct (event_fields reg kw) as [ev|]; [|discriminate].
  cbn [bind]. intro H. injection H as <-.
  exists i, ev. repeat split.
Qed.

(** X2.  The tap index of a filter constructed with a window length of at
    least one is an index into the window: it lies in [0, length). *)
Theorem MovingWindowFilter_tap_in_window
    (reg : Z -> option (list string)) (kw : kwargs)
    (f : MovingWindowFilter) :
  1 <= length kw ->
  MovingWindowFilter_init reg kw = Return f ->
  0 <= _active_index f < length kw.
Proof.
  intros HL Hinit.
  destruct (MovingWindowFilter_init_fields reg kw f Hinit)
    as (i & ev & Hi & _ & ->).
  exact (active_index_of_range _ _ _ HL Hi).
Qed.

Lemma MovingWindowFilter_tap_in_window_witness :
  0 <= 3 < 7.
Proof.
  exact (MovingWindowFilter_tap_in_window no_registry
           (scalar_kwargs (Sym "center") 7)
           (mkMWF false 3 None None (NumPyRingBuffer.make 7))
           ltac:(cbn; lia) eq_refl).
Defined.

(** ** Bounds of the mean *)

Lemma Qsum_bounds (lo hi : Q) (l : list Q) :
  (forall y, In y l -> (lo <= y <= hi)%Q) ->
  (inject_Z (Z.of_nat (List.length l)) * lo <= Qsum l)%Q /\
  (Qsum l <= inject_Z (Z.of_nat (List.length l)) * hi)%Q.
Proof.
  induction l as [|x l IH]; intro Hb.
  - cbn. split; rewrite Qmult_0_l; apply Qle_refl.
  - destruct (Hb x (or_introl eq_refl)) as [Hlo Hhi].
    destruct (IH (fun y Hy => Hb y (or_intror Hy))) as [IHlo IHhi].
    cbn [List.length Qsum]. rewrite Nat2Z.inj_succ, <- Z.add_1_l, inject_Z_plus.
    split.
    + setoid_replace ((inject_Z 1 + inject_Z (Z.of_nat (List.length l))) * lo)%Q
        with (lo + inject_Z (Z.of_nat (List.length l)) * lo)%Q by ring.
      apply Qplus_le_compat; assumption.
    + setoid_replace ((inject_Z 1 + inject_Z (Z.of_nat (List.length l))) * hi)%Q
        with (hi + inject_Z (Z.of_nat (List.length l)) * hi)%Q by ring.
      apply Qplus_le_compat; assumption.
Qed.

(** X3.  The mean filter never leaves the range of its input: if every
    sample submitted so far lies between [lo] and [hi], then from the L-th
    submission on [add] returns a value between [lo] and [hi]. *)
Theorem MovingWindowFilter_mean_within_bounds
    (reg : Z -> option (list string)) (kw : kwargs)
    (f : MovingWindowFilter) (h : store) (past : list Q) (x lo hi : Q) :
  1 <= length kw ->
  MovingWindowFilter_init reg kw = Return f ->
  (forall y, In y (past ++ [x]) -> (lo <= y <= hi)%Q) ->
  (Z.to_nat (length kw) <= S (List.length past))%nat ->
  exists v,
    snd (MovingWindowFilter_add
           (fed MovingWindowFilter_add f h (map Bare past))
           (fed_store MovingWindowFilter_add f h (map Bare past))
           (Bare x))
    = Return (Some (None, Num v)) /\
    (lo <= v <= hi)%Q.
Proof.
  intros HL Hinit Hb Hn.
  pose proof (MovingWindowFilter_init_buffer reg kw f Hinit) as Hbuf.
  assert (Hw0 : window f = [] /\ capacity f = Z.to_nat (length kw)).
  { unfold window, capacity. cbn. rewrite Hbuf. split; reflexivity. }
  destruct Hw0 as [Hw0 Hc0].
  destruct (add_bare_from_empty f h past x Hw0) as (Hw & _ & Hout & Hlen).
  rewrite Hc0 in Hw, Hout, Hlen.
  assert (Hge : (S (List.length past) <? Z.to_nat (length kw))%nat = false)
    by (apply Nat.ltb_ge; exact Hn).
  rewrite Hge in Hout. specialize (Hlen Hge).
  rewrite Hout. cbn [filteredValue MovingWindowFilter_filter bind].
  eexists. split; [reflexivity|].
  unfold NumPyRingBuffer.mean.
  unfold window in Hw, Hlen. cbn [base MovingWindowFilter_filter] in Hw, Hlen.
  unfold NumPyRingBuffer.getElements in Hw, Hlen.
  set (w := NumPyRingBuffer.elements _) in *.
  assert (Hin : forall y, In y w -> (lo <= y <= hi)%Q).
  { intros y Hy. apply Hb. rewrite Hw in Hy. exact (lastn_In _ _ _ Hy). }
  destruct (Qsum_bounds lo hi w Hin) as [Hlo Hhi].
  assert (Hpos : (0 < inject_Z (Z.of_nat (List.length w)))%Q).
  { rewrite Hlen. change 0%Q with (inject_Z 0). rewrite <- Zlt_Qlt. lia. }
  split.
  - apply Qle_shift_div_l; [exact Hpos|]. rewrite Qmult_comm. exact Hlo.
  - apply Qle_shift_div_r; [exact Hpos|]. rewrite Qmult_comm. exact Hhi.
Qed.

Lemma MovingWindowFilter_mean_within_bounds_witness :
  exists v,
    snd (MovingWindowFilter_add
           (fed MovingWindowFilter_add
              (mkMWF false 0 None None (NumPyRingBuffer.make 2))
              empty_store (map Bare [4; 1]%Q))
           (fed_store MovingWindowFilter_add
              (mkMWF false 0 None None (NumPyRingBuffer.make 2))
              empty_store (map Bare [4; 1]%Q))
           (Bare 3))
    = Return (Some (None, Num v)) /\
    (1 <= v <= 4)%Q.
Proof.
  refine (MovingWindowFilter_mean_within_bounds no_registry
            (scalar_kwargs (Sym "latest") 2)
            (mkMWF false 0 None None (NumPyRingBuffer.make 2))
            empty_store [4; 1]%Q 3%Q 1%Q 4%Q _ eq_refl _ _).
  - cbn. lia.
  - cbn. intros y [<-|[<-|[<-|[]]]]; split; intro H; vm_compute in H;
      discriminate H.
  - cbn. lia.
Defined.

(** ** The weighted average in doubles *)








(** ** The median *)

Lemma insert_sorted_perm (x : Q) (l : list Q) :
  Permutation (insert_sorted x l) (x :: l).
Proof.
  induction l as [|y l IH]; cbn [insert_sorted]; [reflexivity|].
  destruct (Qle_bool x y); [reflexivity|].
  rewrite IH. apply perm_swap.
Qed.

Lemma sort_perm (l : list Q) : Permutation (sort l) l.
Proof.
  induction l as [|x l IH]; cbn [sort]; [reflexivity|].
  rewrite insert_sorted_perm. apply perm_skip. exact IH.
Qed.

Lemma insert_sorted_sorted (x : Q) (l : list Q) :
  StronglySorted Qle l -> StronglySorted Qle (insert_sorted x l).
Proof.
  induction l as [|y l IH]; intro Hs; cbn [insert_sorted].
  - constructor; constructor.
  - apply StronglySorted_inv in Hs. destruct Hs as [Hs Hy].
    destruct (Qle_bool x y) eqn:E.
    + apply Qle_bool_iff in E. constructor; [constructor; assumption|].
      constructor; [exact E|].
      apply (Forall_impl _ (fun z Hz => Qle_trans _ _ _ E Hz) Hy).
    + assert (Hyx : (y <= x)%Q).
      { apply Qlt_le_weak, Qnot_le_lt. intro Hle.
        apply Qle_bool_iff in Hle. congruence. }
      constructor; [exact (IH Hs)|].
      apply (Permutation_Forall (Permutation_sym (insert_sorted_perm x l))).
      constructor; assumption.
Qed.

Lemma sort_sorted (l : list Q) : StronglySorted Qle (sort l).
Proof.
  induction l as [|x l IH]; cbn [sort]; [constructor|].
  apply insert_sorted_sorted. exact IH.
Qed.

Lemma sorted_split (l1 l2 : list Q) (m : Q) :
  StronglySorted Qle (l1 ++ m :: l2) ->
  Forall (fun y => (y <= m)%Q) l1 /\ Forall (fun y => (m <= y)%Q) l2.
Proof.
  induction l1 as [|y l1 IH]; cbn [app]; intro Hs;
    apply StronglySorted_inv in Hs; destruct Hs as [Hs Hy].
  - split; [constructor|exact Hy].
  - destruct (IH Hs) as [H1 H2]. split; [|exact H2].
    constructor; [|exact H1].
    apply Forall_app in Hy. destruct Hy as [_ Hy].
    apply Forall_inv in Hy. exact Hy.
Qed.

(** The median of a window of odd length splits it into two halves of equal
    size, one below it and one above. *)
Lemma median_odd (a : list Q) (k : nat) :
  List.length a = (2 * k + 1)%nat ->
  exists m lower upper,
    median a = Num m /\
    Permutation a (lower ++ m :: upper) /\
    List.length lower = k /\ List.length upper = k /\
    Forall (fun y => (y <= m)%Q) lower /\
    Forall (fun y => (m <= y)%Q) upper.
Proof.
  intro Hl.
  assert (Hodd : Nat.odd (List.length a) = true).
  { rewrite Hl, Nat.add_1_r, Nat.odd_succ, Nat.even_mul. reflexivity. }
  assert (Hdiv : (List.length a / 2)%nat = k).
  { rewrite Hl. symmetry. apply (Nat.div_unique _ 2 k 1); lia. }
  pose proof (Permutation_length (sort_perm a)) as Hls.
  assert (Hk : (k < List.length (sort a))%nat) by lia.
  destruct (nth_split (sort a) 0%Q Hk) as (l1 & l2 & Hsplit & Hl1).
  exists (nth k (sort a) 0%Q), l1, l2.
  split.
  - unfold median. rewrite Hodd, Hdiv.
    destruct a; [cbn in Hl; lia|reflexivity].
  - split.
    + rewrite <- Hsplit. symmetry. apply sort_perm.
    + split; [exact Hl1|]. split.
      * assert (E : List.length (sort a)
                    = List.length (l1 ++ nth k (sort a) 0%Q :: l2))
          by (rewrite <- Hsplit; reflexivity).
        rewrite length_app in E. cbn [List.length] in E. lia.
      * apply sorted_split. rewrite <- Hsplit. apply sort_sorted.
Qed.

(** X5.  A median filter with an odd window length 2k+1, fed bare scalars,
    returns from the (2k+1)-th submission on a sample of the last 2k+1
    submitted such that k of the others are at most it and the remaining k
    at least it. *)
Theorem MedianFilter_returns_middle_sample
    (reg : Z -> option (list string)) (kw : kwargs)
    (f : MedianFilter) (h : store) (past : list Q) (x : Q) (k : nat) :
  length kw = Z.of_nat (2 * k + 1) ->
  MedianFilter_init reg kw = Return f ->
  (2 * k + 1 <= S (List.length past))%nat ->
  exists m lower upper,
    snd (MovingWindowFilter_add
           (fed MovingWindowFilter_add f h (map Bare past))
           (fed_store MovingWindowFilter_add f h (map Bare past))
           (Bare x))
    = Return (Some (None, Num m)) /\
    Permutation (lastn (2 * k + 1) (past ++ [x])) (lower ++ m :: upper) /\
    List.length lower = k /\ List.length upper = k /\
    Forall (fun y => (y <= m)%Q) lower /\
    Forall (fun y => (m <= y)%Q) upper.
Proof.
  intros HL Hinit Hn.
  assert (Hw0 : window f = [] /\ capacity f = (2 * k + 1)%nat).
  { unfold MedianFilter_init in Hinit.
    destruct (MovingWindowFilter_init reg kw) as [m0|] eqn:E; [|discriminate].
    cbn [bind] in Hinit. injection Hinit as <-.
    apply MovingWindowFilter_init_buffer in E. rewrite HL, Nat2Z.id in E.
    unfold window, capacity. cbn. rewrite E. split; reflexivity. }
  destruct Hw0 as [Hw0 Hc0].
  destruct (add_bare_from_empty f h past x Hw0) as (Hw & _ & Hout & Hlen).
  rewrite Hc0 in Hw, Hout, Hlen.
  assert (Hge : (S (List.length past) <? 2 * k + 1)%nat = false)
    by (apply Nat.ltb_ge; exact Hn).
  rewrite Hge in Hout. specialize (Hlen Hge). rewrite Hout.
  set (f2 := fst (fst (MovingWindowFilter_add _ _ (Bare x)))) in *.
  cbn [filteredValue MedianFilter_filter]. unfold MedianFilter_filteredValue.
  change (NumPyRingBuffer.getElements (_filtering_buffer (median_base f2)))
    with (window f2).
  destruct (median_odd (window f2) k Hlen)
    as (m & lower & upper & Hm & Hp & H1 & H2 & H3 & H4).
  exists m, lower, upper. rewrite Hm, <- Hw. cbn [bind]. repeat split; assumption.
Qed.

Lemma MedianFilter_returns_middle_sample_witness :
  exists f m lower upper,
    MedianFilter_init no_registry (scalar_kwargs (Sym "center") 5) = Return f /\
    snd (MovingWindowFilter_add
           (fed MovingWindowFilter_add f empty_store
              (map Bare [1; 2; 100; 4]%Q))
           (fed_store MovingWindowFilter_add f empty_store
              (map Bare [1; 2; 100; 4]%Q))
           (Bare 5))
    = Return (Some (None, Num m)) /\
    Permutation [1; 2; 100; 4; 5]%Q (lower ++ m :: upper) /\
    List.length lower = 2%nat /\ List.length upper = 2%nat.
Proof.
  eexists.
  destruct (MedianFilter_returns_middle_sample no_registry
              (scalar_kwargs (Sym "center") 5) _ empty_store
              [1; 2; 100; 4]%Q 5%Q 2%nat eq_refl eq_refl ltac:(cbn; lia))
    as (m & lower & upper & Hout & Hp & H1 & H2 & _).
  exists m, lower, upper. split; [reflexivity|].
  split; [exact Hout|]. split; [exact Hp|]. split; assumption.
Defined.

(** ** [clear] *)

Section Configuration.

Context {F : Type} `{WindowFilter F}.

(** [add] changes the buffered samples and events and nothing else. *)
Lemma add_configuration (self : F) (h : store) (event : sample) :
  configuration (base (fst (fst (MovingWindowFilter_add self h event))))
  = configuration (base self).
Proof.
  assert (Happ : forall x,
             configuration (base (append_sample self x))
             = configuration (base self)).
  { intro x. rewrite base_append_sample. reflexivity. }
  destruct event as [x|r].
  - rewrite add_bare. cbn [fst]. apply Happ.
  - unfold MovingWindowFilter_add.
    destruct (_event_field_index (base self)) as [i|]; [|reflexivity].
    destruct (nth_error (h r) i) as [v|]; [|reflexivity].
    destruct (as_sample v) as [x|e]; [|reflexivity].
    destruct (_events (base (append_sample self x))) as [d|] eqn:Ed;
      [|cbn [fst]; apply Happ].
    set (self2 := set_base _ _).
    assert (G : configuration (base self2) = configuration (base self)).
    { rewrite <- (Happ x). unfold self2. rewrite base_set_base.
      unfold configuration. cbn. rewrite Ed. reflexivity. }
    destruct (isFull self2); [|exact G].
    destruct (_inplace (base self2)); [|exact G].
    destruct (write_inplace self2 (Deque.append d (Event r)) i h)
      as [h' [u|e]]; exact G.
Qed.

Lemma fed_configuration (events : list sample) :
  forall (self : F) (h : store),
    configuration (base (fed MovingWindowFilter_add self h events))
    = configuration (base self).
Proof.
  induction events as [|e rest IH]; intros self h; [reflexivity|].
  unfold fed. cbn [feed].
  pose proof (add_configuration self h e) as Hc.
  destruct (MovingWindowFilter_add self h e) as [[self1 h1] r].
  pose proof (IH self1 h1) as IH1. unfold fed in IH1.
  destruct (feed MovingWindowFilter_add self1 h1 rest) as [[self2 h2] rs].
  cbn [fst] in *. congruence.
Qed.

End Configuration.

(** X6.  Whatever a mean filter has been fed, [clear] puts it back into the
    state in which it was constructed: empty buffer, empty event deque, same
    capacity, tap and field index. *)
Theorem MovingWindowFilter_clear_restores_construction
    (reg : Z -> option (list string)) (kw : kwargs)
    (f : MovingWindowFilter) (h : store) (events : list sample) :
  MovingWindowFilter_init reg kw = Return f ->
  MovingWindowFilter_clear (fed MovingWindowFilter_add f h events) = f.
Proof.
  intro Hinit.
  pose proof (fed_configuration events f h) as Hc.
  cbn [base MovingWindowFilter_filter] in Hc.
  destruct (MovingWindowFilter_init_fields reg kw f Hinit)
    as (i & ev & _ & Hev & ->).
  assert (Hfresh : snd ev = None \/
                   snd ev = Some (Deque.make (Z.to_nat (length kw)))).
  { unfold event_fields in Hev.
    destruct (truthy_type (event_type kw) && truthy_name (event_field_name kw));
      [|injection Hev as <-; left; reflexivity].
    destruct (event_type kw); [|injection Hev as <-; left; reflexivity].
    destruct (event_field_name kw); [|injection Hev as <-; left; reflexivity].
    destruct (reg z); [|discriminate].
    destruct (list_index s l); [|discriminate].
    destruct (length kw <? 0); [discriminate|].
    injection Hev as <-. right. reflexivity. }
  destruct (fed MovingWindowFilter_add _ h events)
    as [ip ai efi evs [n els]].
  unfold configuration in Hc. cbn in Hc.
  injection Hc as -> -> -> Hd ->.
  unfold MovingWindowFilter_clear. cbn.
  destruct Hfresh as [E|E]; rewrite E in *.
  - destruct evs as [d|]; [discriminate Hd|]. reflexivity.
  - destruct evs as [[ml its]|]; [|discriminate Hd].
    cbn in Hd. injection Hd as ->. reflexivity.
Qed.

Lemma MovingWindowFilter_clear_restores_construction_witness :
  exists f,
    MovingWindowFilter_init mouse_registry mouse_x_kwargs = Return f /\
    MovingWindowFilter_clear
      (fed MovingWindowFilter_add f mouse_store
         [Event 0%nat; Bare 5; Event 1%nat; Event 2%nat; Event 2%nat]) = f.
Proof.
  eexists. split; [reflexivity|].
  exact (MovingWindowFilter_clear_restores_construction mouse_registry
           mouse_x_kwargs _ mouse_store
           [Event 0%nat; Bare 5; Event 1%nat; Event 2%nat; Event 2%nat]
           eq_refl).
Defined.

(** ** Structured events *)

Lemma lastn_map {A B} (g : A -> B) (n : nat) (l : list A) :
  lastn n (map g l) = map g (lastn n l).
Proof. unfold lastn. rewrite length_map, skipn_map. reflexivity. Qed.

(** One event through a mean filter that does not filter in place. *)
Lemma add_event_plain (ai : Z) (i : nat) (d : Deque.t sample)
    (b : NumPyRingBuffer.t) (h : store) (r : ref) (q : Q) :
  nth_error (h r) i = Some (Num q) ->
  let m2 := mkMWF false ai (Some i) (Some (Deque.append d (Event r)))
              (NumPyRingBuffer.append b q) in
  MovingWindowFilter_add (mkMWF false ai (Some i) (Some d) b) h (Event r)
  = (m2, h,
     if NumPyRingBuffer.isFull (NumPyRingBuffer.append b q)
     then tapped_pair m2 (Deque.append d (Event r))
     else Return None).
Proof.
  intros Hq m2. unfold MovingWindowFilter_add. cbn. rewrite Hq. cbn.
  unfold isFull, NumPyRingBuffer.isFull. cbn.
  match goal with
  | |- context [if ?c then _ else _] => destruct c
  end; reflexivity.
Qed.

(** The state after a run of events: the deque holds the last events, the
    buffer their field values, and the store is as it was. *)
Lemma fed_events_plain (ai : Z) (i : nat) (n dl : nat) (h : store)
    (past : list ref) :
  (forall r, In r past -> exists q, nth_error (h r) i = Some (Num q)) ->
  forall (its : list sample) (els : list Q),
    (List.length its <= dl)%nat -> (List.length els <= n)%nat ->
    fed MovingWindowFilter_add
      (mkMWF false ai (Some i) (Some (Deque.mk dl its))
             (NumPyRingBuffer.mk n els)) h (map Event past)
    = mkMWF false ai (Some i)
        (Some (Deque.mk dl (lastn dl (its ++ map Event past))))
        (NumPyRingBuffer.mk n (lastn n (els ++ map (field_of h i) past)))
    /\
    fed_store MovingWindowFilter_add
      (mkMWF false ai (Some i) (Some (Deque.mk dl its))
             (NumPyRingBuffer.mk n els)) h (map Event past) = h.
Proof.
  induction past as [|r rest IH]; intros Hval its els Hi He.
  - cbn. rewrite !app_nil_r, !lastn_all by assumption. split; reflexivity.
  - destruct (Hval r (or_introl eq_refl)) as [q Hq].
    unfold fed, fed_store. cbn [map feed].
    rewrite (add_event_plain ai i _ _ h r q Hq).
    unfold Deque.append, NumPyRingBuffer.append. cbn [Deque.maxlen Deque.items
      NumPyRingBuffer.max_size NumPyRingBuffer.elements].
    assert (Hi' : (List.length (lastn dl (its ++ [Event r])) <= dl)%nat)
      by (rewrite lastn_length; lia).
    assert (He' : (List.length (lastn n (els ++ [q])) <= n)%nat)
      by (rewrite lastn_length; lia).
    destruct (IH (fun r' Hr' => Hval r' (or_intror Hr')) _ _ Hi' He')
      as [IHs IHh].
    unfold fed, fed_store in IHs, IHh.
    destruct (feed MovingWindowFilter_add _ h (map Event rest))
      as [[m' h'] rs].
    cbn [fst snd] in *. subst m' h'.
    rewrite !lastn_app_lastn, <- !app_assoc. cbn [app].
    unfold field_of at 2. rewrite Hq. split; reflexivity.
Qed.

(** What a mean filter on structured events returns, not filtering in
    place: the event at the tap position among the last events, counted
    from the oldest, and the mean of their field values. *)
Lemma add_event_after_feed reg (kw : kwargs) (f : MovingWindowFilter)
    (h : store) (past : list ref) (r : ref) (i : nat) :
  1 <= length kw ->
  inplace kw = false ->
  MovingWindowFilter_init reg kw = Return f ->
  _event_field_index f = Some i ->
  (forall r', In r' (past ++ [r]) ->
              exists q, nth_error (h r') i = Some (Num q)) ->
  (Z.to_nat (length kw) <= S (List.length past))%nat ->
  let L := Z.to_nat (length kw) in
  fed_store MovingWindowFilter_add f h (map Event past) = h /\
  exists tap,
    nth_error (past ++ [r])
      (S (List.length past) - L + Z.to_nat (_active_index f)) = Some tap /\
    MovingWindowFilter_add
      (fed MovingWindowFilter_add f h (map Event past)) h (Event r)
    = (fed MovingWindowFilter_add f h (map Event (past ++ [r])), h,
       Return (Some (Some (Event tap),
                     Num (Qsum (map (field_of h i) (lastn L (past ++ [r])))
                          / inject_Z (length kw))))).
Proof.
  intros HL Hip Hinit Hidx Hval Hn L.
  destruct (MovingWindowFilter_init_fields reg kw f Hinit)
    as (ai & ev & Hai & Hev & ->).
  cbn in Hidx. rewrite Hip in *.
  pose proof (active_index_of_range _ _ _ HL Hai) as Hrange.
  assert (Hd : snd ev = Some (Deque.make L)).
  { unfold event_fields in Hev.
    destruct (truthy_type (event_type kw) && truthy_name (event_field_name kw));
      [|injection Hev as <-; discriminate Hidx].
    destruct (event_type kw); [|injection Hev as <-; discriminate Hidx].
    destruct (event_field_name kw); [|injection Hev as <-; discriminate Hidx].
    destruct (reg z); [|discriminate].
    destruct (list_index s l); [|discriminate].
    destruct (length kw <? 0); [discriminate|].
    injection Hev as <-. reflexivity. }
  rewrite Hidx, Hd. cbn [_active_index]. unfold Deque.make, NumPyRingBuffer.make.
  fold L.
  assert (Hval1 : forall r', In r' past ->
                    exists q, nth_error (h r') i = Some (Num q)).
  { intros r' Hr'. apply Hval. apply in_or_app. auto. }
  destruct (fed_events_plain ai i L L h past Hval1 [] []
              ltac:(cbn; lia) ltac:(cbn; lia)) as [Hs Hh].
  destruct (fed_events_plain ai i L L h (past ++ [r]) Hval [] []
              ltac:(cbn; lia) ltac:(cbn; lia)) as [Hs2 _].
  cbn [app] in Hs, Hs2. rewrite Hs, Hs2. split; [exact Hh|].
  destruct (Hval r ltac:(apply in_or_app; right; left; reflexivity))
    as [q Hq].
  assert (Hlen : List.length (past ++ [r]) = S (List.length past))
    by (rewrite length_app; cbn; lia).
  assert (Htap : exists tap,
             nth_error (past ++ [r])
               (S (List.length past) - L + Z.to_nat ai) = Some tap).
  { destruct (nth_error (past ++ [r])
                (S (List.length past) - L + Z.to_nat ai)) eqn:E;
      [eexists; reflexivity|].
    apply nth_error_None in E. lia. }
  destruct Htap as [tap Htap]. exists tap. split; [exact Htap|].
  rewrite (add_event_plain ai i _ _ h r q Hq).
  unfold Deque.append, NumPyRingBuffer.append. cbn [Deque.maxlen Deque.items
    NumPyRingBuffer.max_size NumPyRingBuffer.elements].
  assert (Eits : lastn L (lastn L (map Event past) ++ [Event r])
                 = map Event (lastn L (past ++ [r]))).
  { rewrite lastn_app_lastn, <- lastn_map, map_app. reflexivity. }
  assert (Eels : lastn L (lastn L (map (field_of h i) past) ++ [q])
                 = map (field_of h i) (lastn L (past ++ [r]))).
  { rewrite lastn_app_lastn, <- lastn_map, map_app. cbn [map].
    unfold field_of at 3. rewrite Hq. reflexivity. }
  rewrite Eits, Eels, !lastn_map.
  assert (Hll : List.length (lastn L (past ++ [r])) = L)
    by (rewrite lastn_length, Hlen; lia).
  unfold NumPyRingBuffer.isFull.
  cbn [NumPyRingBuffer.max_size NumPyRingBuffer.elements].
  rewrite length_map, Hll, Nat.leb_refl. f_equal.
  unfold tapped_pair. cbn [base MovingWindowFilter_filter _active_index
    Deque.items].
  unfold py_index.
  replace (0 <=? ai) with true by (symmetry; apply Z.leb_le; lia).
  rewrite nth_error_map. unfold lastn at 1. rewrite nth_error_skipn, Hlen, Htap.
  cbn [option_map filteredValue MovingWindowFilter_filter bind
       _filtering_buffer].
  unfold NumPyRingBuffer.mean. cbn [NumPyRingBuffer.elements].
  rewrite length_map, Hll.
  replace (Z.of_nat L) with (length kw) by (unfold L in *; lia).
  reflexivity.
Qed.

(** X7.  A mean filter on a field of structured events that does not filter
    in place leaves the events untouched and, from the L-th event on,
    returns the event at the tap position among the last L events, counted
    from the oldest, together with the mean of the field over those L
    events. *)
Theorem MovingWindowFilter_add_event_mean
    (reg : Z -> option (list string)) (kw : kwargs)
    (f : MovingWindowFilter) (h : store) (past : list ref) (r : ref)
    (i : nat) :
  1 <= length kw ->
  inplace kw = false ->
  MovingWindowFilter_init reg kw = Return f ->
  _event_field_index f = Some i ->
  (forall r', In r' (past ++ [r]) ->
              exists q, nth_error (h r') i = Some (Num q)) ->
  (Z.to_nat (length kw) <= S (List.length past))%nat ->
  fed_store MovingWindowFilter_add f h (map Event past) = h /\
  exists tap,
    nth_error (lastn (Z.to_nat (length kw)) (past ++ [r]))
      (Z.to_nat (_active_index f)) = Some tap /\
    snd (fst (MovingWindowFilter_add
                (fed MovingWindowFilter_add f h (map Event past)) h
                (Event r))) = h /\
    snd (MovingWindowFilter_add
           (fed MovingWindowFilter_add f h (map Event past)) h (Event r))
    = Return (Some (Some (Event tap),
                    Num (Qsum (map (field_of h i)
                                 (lastn (Z.to_nat (length kw)) (past ++ [r])))
                         / inject_Z (length kw)))).
Proof.
  intros HL Hip Hinit Hidx Hval Hn.
  destruct (add_event_after_feed reg kw f h past r i HL Hip Hinit Hidx Hval Hn)
    as (Hh & tap & Htap & Hadd).
  split; [exact Hh|]. exists tap. rewrite Hadd. cbn [fst snd].
  split; [|split; reflexivity].
  unfold lastn. rewrite nth_error_skipn, length_app. cbn [List.length].
  rewrite Nat.add_1_r. exact Htap.
Qed.

Lemma MovingWindowFilter_add_event_mean_witness :
  exists f tap,
    MovingWindowFilter_init mouse_registry mouse_x_kwargs = Return f /\
    nth_error (lastn 3 [0; 1; 2]%nat) 1 = Some tap /\
    snd (MovingWindowFilter_add
           (fed MovingWindowFilter_add f mouse_store
              (map Event [0; 1]%nat)) mouse_store (Event 2%nat))
    = Return (Some (Some (Event tap),
                    Num (Qsum (map (field_of mouse_store 15)
                                 (lastn 3 [0; 1; 2]%nat)) / 3))).
Proof.
  eexists.
  destruct (MovingWindowFilter_add_event_mean mouse_registry mouse_x_kwargs
              _ mouse_store [0; 1]%nat 2%nat 15%nat
              ltac:(cbn; lia) eq_refl eq_refl eq_refl)
    as (_ & tap & Htap & _ & Hout).
  - cbn. intros r' [<-|[<-|[<-|[]]]]; eexists; reflexivity.
  - cbn. lia.
  - exists tap. split; [reflexivity|]. split; [exact Htap|exact Hout].
Defined.

(** X8.  Which event comes back for the symbolic tap positions, from a mean
    filter on a numeric field of structured events that does not filter in
    place, once the window is full: with [knot_pos='oldest'] the event just
    submitted, and with [knot_pos='latest'] the oldest event of the window,
    submitted L-1 calls earlier. *)
Theorem MovingWindowFilter_symbolic_tap
    (reg : Z -> option (list string)) (kw : kwargs)
    (f : MovingWindowFilter) (h : store) (past : list ref) (r : ref)
    (i : nat) :
  1 <= length kw ->
  inplace kw = false ->
  MovingWindowFilter_init reg kw = Return f ->
  _event_field_index f = Some i ->
  (forall r', In r' (past ++ [r]) ->
              exists q, nth_error (h r') i = Some (Num q)) ->
  (Z.to_nat (length kw) <= S (List.length past))%nat ->
  (knot_pos kw = Sym "oldest" ->
   exists v,
     snd (MovingWindowFilter_add
            (fed MovingWindowFilter_add f h (map Event past)) h (Event r))
     = Return (Some (Some (Event r), v))) /\
  (knot_pos kw = Sym "latest" ->
   exists tap v,
     nth_error (past ++ [r])
       (S (List.length past) - Z.to_nat (length kw)) = Some tap /\
     snd (MovingWindowFilter_add
            (fed MovingWindowFilter_add f h (map Event past)) h (Event r))
     = Return (Some (Some (Event tap), v))).
Proof.
  intros HL Hip Hinit Hidx Hval Hn.
  destruct (add_event_after_feed reg kw f h past r i HL Hip Hinit Hidx Hval Hn)
    as (_ & tap & Htap & Hadd).
  destruct (MovingWindowFilter_init_fields reg kw f Hinit)
    as (ai & ev & Hai & _ & ->).
  cbn [_active_index] in Htap. rewrite Hadd. cbn [snd].
  split; intro Hk; rewrite Hk in Hai; cbn in Hai; injection Hai as <-.
  - replace (S (List.length past) - Z.to_nat (length kw)
             + Z.to_nat (length kw - 1))%nat
      with (List.length past) in Htap by lia.
    rewrite nth_error_app2, Nat.sub_diag in Htap by lia.
    cbn in Htap. injection Htap as <-. eexists. reflexivity.
  - rewrite Nat.add_0_r in Htap. exists tap. eexists.
    split; [exact Htap|reflexivity].
Qed.

Lemma MovingWindowFilter_symbolic_tap_witness :
  (exists v,
     snd (MovingWindowFilter_add
            (fed MovingWindowFilter_add
               (mkMWF false 1 (Some 15%nat) (Some (Deque.make 2))
                      (NumPyRingBuffer.make 2))
               mouse_store (map Event [0; 1]%nat))
            mouse_store (Event 2%nat))
     = Return (Some (Some (Event 2%nat), v))).
Proof.
  refine (proj1 (MovingWindowFilter_symbolic_tap mouse_registry
            (mkKwargs false (Sym "oldest") 2 (Some 36)
               (Some "x_position"%string))
            (mkMWF false 1 (Some 15%nat) (Some (Deque.make 2))
                   (NumPyRingBuffer.make 2))
            mouse_store [0; 1]%nat 2%nat 15%nat
            _ eq_refl eq_refl eq_refl _ _) eq_refl).
  - cbn. lia.
  - cbn. intros r' [<-|[<-|[<-|[]]]]; eexists; reflexivity.
  - cbn. lia.
Defined.

(** ** Filtering in place *)

(** X9.  What [add] does to the events, for a filter of any class.  Without
    [inplace], for a bare scalar, and whenever [add] raises or returns
    nothing, no event is changed.  When an in-place filter returns an event,
    exactly that event has been changed, in the filtered field, which now
    holds the value returned with it. *)
Theorem MovingWindowFilter_add_store_effect {F : Type} `{WindowFilter F}
    (self : F) (h : store) (event : sample) :
  let h' := snd (fst (MovingWindowFilter_add self h event)) in
  let out := snd (MovingWindowFilter_add self h event) in
  (_inplace (base self) = false -> h' = h) /\
  (forall x, event = Bare x -> h' = h) /\
  ((forall p, out <> Return (Some p)) -> h' = h) /\
  (forall tap v,
     _inplace (base self) = true ->
     out = Return (Some (Some (Event tap), v)) ->
     exists i,
       _event_field_index (base self) = Some i /\
       (i < List.length (h tap))%nat /\
       h' tap = list_set (h tap) i v /\
       forall r, r <> tap -> h' r = h r).
Proof.
  destruct event as [x|r].
  - rewrite add_bare. cbn [fst snd]. repeat split; try reflexivity.
    intros tap v _ Hout.
    destruct (isFull (append_sample self x)); [|discriminate Hout].
    destruct (filteredValue (append_sample self x)); discriminate Hout.
  - unfold MovingWindowFilter_add.
    destruct (_event_field_index (base self)) as [i|];
      [|cbn; repeat split; try reflexivity; intros; discriminate].
    destruct (nth_error (h r) i) as [v0|];
      [|cbn; repeat split; try reflexivity; intros; discriminate].
    destruct (as_sample v0) as [x|e];
      [|cbn; repeat split; try reflexivity; intros; discriminate].
    destruct (_events (base (append_sample self x))) as [d|] eqn:Ed;
      [|cbn; repeat split; try reflexivity; intros; discriminate].
    set (self2 := set_base _ _).
    assert (Hip : _inplace (base self2) = _inplace (base self)).
    { unfold self2. rewrite base_set_base. cbn. rewrite base_append_sample.
      reflexivity. }
    destruct (isFull self2);
      [|cbn; repeat split; try reflexivity; intros; discriminate].
    rewrite Hip. destruct (_inplace (base self)) eqn:Ein.
    + unfold write_inplace, tapped_pair.
      destruct (filteredValue self2) as [fv|e];
        [|cbn; repeat split; try reflexivity; intros; discriminate].
      destruct (py_index (Deque.items (Deque.append d (Event r)))
                  (_active_index (base self2))) as [[y|tap]|];
        [cbn; repeat split; try reflexivity; intros; discriminate| |
         cbn; repeat split; try reflexivity; intros; discriminate].
      destruct (Nat.ltb_spec i (List.length (h tap))) as [Hlt|Hge];
        [|cbn; repeat split; try reflexivity; intros; discriminate].
      cbn [fst snd bind]. split; [discriminate|]. split; [discriminate|].
      split.
      * intro Hno. exfalso. exact (Hno _ eq_refl).
      * intros tap' v _ Hout. injection Hout as <- <-.
        exists i. split; [reflexivity|]. split; [exact Hlt|].
        unfold store_set. split; [rewrite Nat.eqb_refl; reflexivity|].
        intros r' Hr'. apply Nat.eqb_neq in Hr'. rewrite Hr'. reflexivity.
    + cbn [fst snd]. repeat split; try reflexivity. intros ? ? Hf. discriminate Hf.
Qed.

Lemma MovingWindowFilter_add_store_effect_witness :
  snd (fst (MovingWindowFilter_add
              (mkMWF true 0 (Some 15%nat) (Some (Deque.make 1))
                     (NumPyRingBuffer.make 1))
              mouse_store (Event 1%nat))) 0%nat
  = mouse_store 0%nat.
Proof.
  destruct (MovingWindowFilter_add_store_effect
              (mkMWF true 0 (Some 15%nat) (Some (Deque.make 1))
                     (NumPyRingBuffer.make 1))
              mouse_store (Event 1%nat)) as (_ & _ & _ & Hw).
  destruct (Hw 1%nat (Num (-85 / 1)) eq_refl eq_refl) as (i & _ & _ & _ & Ho).
  apply Ho. discriminate.
Defined.

(** ** The Stampe cascade *)

Lemma StampFilter_init_cascade reg (level : nat) :
  forall (kw : kwargs) (f : StampFilter),
    StampFilter_init reg level kw = Return f ->
    List.length (cascade f) = Nat.max 1 level /\
    Forall (fun m => configuration m
                     = (_inplace m, 1, _event_field_index m,
                        option_map (fun _ => 3%nat) (_events m), 3%nat) /\
                     NumPyRingBuffer.elements (_filtering_buffer m) = [])
           (cascade f) /\
    _inplace (hd (stamp_base f) (cascade f)) = inplace kw /\
    Forall (fun m => _inplace m = false) (tl (cascade f)).
Proof.
  assert (Hbase : forall kw m,
            MovingWindowFilter_init reg
              (mkKwargs (inplace kw) (Sym "center") 3
                 (event_type kw) (event_field_name kw)) = Return m ->
            (configuration m
             = (_inplace m, 1, _event_field_index m,
                option_map (fun _ => 3%nat) (_events m), 3%nat) /\
             NumPyRingBuffer.elements (_filtering_buffer m) = []) /\
            _inplace m = inplace kw).
  { intros kw m Hm.
    destruct (MovingWindowFilter_init_fields _ _ _ Hm)
      as (i & ev & Hi & Hev & ->).
    cbn in Hi. injection Hi as <-. unfold configuration. cbn.
    split; [|reflexivity]. split; [|reflexivity].
    unfold event_fields in Hev. cbn [length] in Hev.
    destruct (truthy_type _ && truthy_name _);
      [|injection Hev as <-; reflexivity].
    destruct (event_type _); [|injection Hev as <-; reflexivity].
    destruct (event_field_name _); [|injection Hev as <-; reflexivity].
    destruct (reg z); [|discriminate].
    destruct (list_index s l); [|discriminate].
    cbn in Hev. injection Hev as <-. reflexivity. }
  induction level as [|l IH]; intros kw f Hf; cbn [StampFilter_init] in Hf.
  - destruct (MovingWindowFilter_init reg _) as [m|] eqn:Em; [|discriminate].
    cbn [bind] in Hf. injection Hf as <-.
    destruct (Hbase kw m Em) as [H1 H2]. cbn.
    split; [reflexivity|]. split; [constructor; [exact H1|constructor]|].
    split; [exact H2|constructor].
  - destruct (MovingWindowFilter_init reg _) as [m|] eqn:Em; [|discriminate].
    cbn [bind] in Hf. destruct (Hbase kw m Em) as [H1 H2].
    destruct l as [|l'].
    + injection Hf as <-. cbn.
      split; [reflexivity|]. split; [constructor; [exact H1|constructor]|].
      split; [exact H2|constructor].
    + destruct (StampFilter_init reg (S l') _) as [sub|] eqn:Es;
        [|discriminate].
      cbn [bind] in Hf. injection Hf as <-.
      destruct (IH _ sub Es) as (IH1 & IH2 & IH3 & IH4).
      cbn [cascade List.length hd tl]. rewrite IH1.
      split; [lia|]. split; [constructor; assumption|].
      split; [exact H2|].
      destruct sub as [ms ls [ss|]]; cbn [cascade hd tl] in *;
        constructor; assumption.
Qed.

(** X10.  A Stampe filter of level n is a chain of max(1, n) filters.  Each
    has a window of three samples, empty at construction, with the tap at
    index 1, whatever [knot_pos] and [length] the caller passed; the
    outermost filters in place if the caller asked for it, and none of the
    sub filters does.  Construction succeeds whenever no event type is
    named. *)
Theorem StampFilter_init_builds_cascade
    (reg : Z -> option (list string)) (level : nat) (kw : kwargs) :
  (event_type kw = None ->
   exists f, StampFilter_init reg level kw = Return f) /\
  (forall f,
     StampFilter_init reg level kw = Return f ->
     List.length (cascade f) = Nat.max 1 level /\
     Forall (fun m => capacity m = 3%nat /\ window m = [] /\
                      _active_index m = 1)
            (cascade f) /\
     _inplace (stamp_base f) = inplace kw /\
     Forall (fun m => _inplace m = false) (tl (cascade f))).
Proof.
  split.
  - intro Hty. revert kw Hty. induction level as [|l IH]; intros kw Hty.
    + cbn. unfold MovingWindowFilter_init, event_fields. cbn.
      rewrite Hty. cbn. eexists. reflexivity.
    + cbn [StampFilter_init].
      assert (E : exists m, MovingWindowFilter_init reg
                   (mkKwargs (inplace kw) (Sym "center") 3
                      (event_type kw) (event_field_name kw)) = Return m).
      { unfold MovingWindowFilter_init, event_fields. cbn.
        rewrite Hty. cbn. eexists. reflexivity. }
      destruct E as [m ->]. cbn [bind].
      destruct l as [|l']; [eexists; reflexivity|].
      destruct (IH (mkKwargs false (Sym "center") 3 (event_type kw)
                      (event_field_name kw)) Hty) as [sub Hsub].
      rewrite Hsub. cbn [bind]. eexists. reflexivity.
  - intros f Hf.
    destruct (StampFilter_init_cascade reg level kw f Hf)
      as (H1 & H2 & H3 & H4).
    split; [exact H1|]. split; [|split; [|exact H4]].
    + eapply Forall_impl; [|exact H2].
      intros m [Hc He]. unfold configuration in Hc.
      injection Hc as Hai _ Hcap.
      unfold capacity, window. cbn. repeat split; assumption.
    + destruct f as [m l [s|]]; exact H3.
Qed.

Lemma StampFilter_init_builds_cascade_witness :
  exists f,
    StampFilter_init no_registry 3
      (mkKwargs true (Sym "nowhere") 9 None None) = Return f /\
    List.length (cascade f) = 3%nat /\
    _inplace (stamp_base f) = true /\
    Forall (fun m => _inplace m = false) (tl (cascade f)).
Proof.
  destruct (proj1 (StampFilter_init_builds_cascade no_registry 3
                     (mkKwargs true (Sym "nowhere") 9 None None)) eq_refl)
    as [f Hf].
  exists f. split; [exact Hf|].
  destruct (proj2 (StampFilter_init_builds_cascade no_registry 3
                     (mkKwargs true (Sym "nowhere") 9 None None)) f Hf)
    as (H1 & _ & H3 & H4).
  split; [exact H1|]. split; assumption.
Defined.

(** ** The output queue of a device event filter *)

Lemma list_set_length {A} (l : list A) (i : nat) (v : A) :
  List.length (list_set l i v) = List.length l.
Proof.
  revert i. induction l as [|x l IH]; intros [|i]; cbn; try reflexivity.
  rewrite IH. reflexivity.
Qed.

Lemma list_set_same {A} (l : list A) (i : nat) (v : A) :
  (i < List.length l)%nat -> nth_error (list_set l i v) i = Some v.
Proof.
  revert i. induction l as [|x l IH]; intros [|i] H; cbn in *; try lia.
  - reflexivity.
  - apply IH. lia.
Qed.

Lemma list_set_other {A} (l : list A) (i j : nat) (v : A) :
  i <> j -> nth_error (list_set l i v) j = nth_error l j.
Proof.
  revert i j. induction l as [|x l IH]; intros [|i] [|j] H; cbn;
    try reflexivity; try congruence.
  apply IH. congruence.
Qed.

Section HubProperties.

Variables EID FID : nat.
Variable counter : Type.
Variable next : counter -> Z * counter.
Variable filter_id : DeviceEventFilter -> hub_outcome Z.
Variable fid : Z.
Hypothesis filter_id_set : forall self, filter_id self = Done fid.

Let emit := addOutputEvent EID FID counter next filter_id.

(** One event emitted by a subclass that has a filter id. *)
Lemma addOutputEvent_done (self : DeviceEventFilter) (h : store)
    (c : counter) (e : ref) :
  (EID < List.length (h e))%nat -> (FID < List.length (h e))%nat ->
  exists h',
    emit self h c e
    = (with_outputs self (_output_events self ++ [e]), h',
       snd (next c), Done tt) /\
    (forall r, List.length (h' r) = List.length (h r)) /\
    nth_error (h' e) FID = Some (Num (inject_Z fid)) /\
    (forall r, nth_error (h r) FID = Some (Num (inject_Z fid)) ->
               nth_error (h' r) FID = Some (Num (inject_Z fid))).
Proof.
  intros He Hf. unfold emit, addOutputEvent.
  destruct (next c) as [id c1]. cbn [snd].
  apply Nat.ltb_lt in He. rewrite He. rewrite filter_id_set.
  unfold store_set at 1. rewrite Nat.eqb_refl, list_set_length.
  pose proof Hf as Hf'. apply Nat.ltb_lt in Hf'. rewrite Hf'.
  eexists. split; [reflexivity|].
  assert (Hsame : nth_error
            (list_set (store_set h e (list_set (h e) EID (Num (inject_Z id))) e)
               FID (Num (inject_Z fid))) FID = Some (Num (inject_Z fid))).
  { apply list_set_same. unfold store_set. rewrite Nat.eqb_refl, list_set_length.
    exact Hf. }
  split; [|split].
  - intro r. unfold store_set. destruct (Nat.eqb r e) eqn:E.
    + apply Nat.eqb_eq in E. subst r. rewrite Nat.eqb_refl.
      rewrite !list_set_length. reflexivity.
    + reflexivity.
  - unfold store_set at 1. rewrite Nat.eqb_refl. exact Hsame.
  - intros r Hr. unfold store_set at 1. destruct (Nat.eqb r e) eqn:E.
    + exact Hsame.
    + unfold store_set. rewrite E. exact Hr.
Qed.

Lemma emit_all_done (es : list ref) :
  forall (self : DeviceEventFilter) (h : store) (c : counter),
    (forall e, In e es ->
               (EID < List.length (h e))%nat /\ (FID < List.length (h e))%nat) ->
    exists h' c',
      emit_all EID FID counter next filter_id self h c es
      = (with_outputs self (_output_events self ++ es), h', c', Done tt) /\
      (forall r, List.length (h' r) = List.length (h r)) /\
      (forall r, In r es \/ nth_error (h r) FID = Some (Num (inject_Z fid)) ->
                 nth_error (h' r) FID = Some (Num (inject_Z fid))).
Proof.
  induction es as [|e rest IH]; intros self h c Hv.
  - exists h, c. cbn [emit_all]. rewrite app_nil_r.
    split; [destruct self; reflexivity|]. split; [reflexivity|].
    intros r [[]|Hr]. exact Hr.
  - destruct (Hv e (or_introl eq_refl)) as [He Hf].
    destruct (addOutputEvent_done self h c e He Hf)
      as (h1 & Hemit & Hlen1 & Hfid1 & Hkeep1).
    cbn [emit_all]. fold emit. rewrite Hemit.
    destruct (IH (with_outputs self (_output_events self ++ [e])) h1
                 (snd (next c))) as (h2 & c2 & Hall & Hlen2 & Hfid2).
    { intros e' He'. rewrite !Hlen1. apply Hv. right. exact He'. }
    exists h2, c2. rewrite Hall. cbn. rewrite <- app_assoc. cbn [app].
    split; [reflexivity|]. split.
    + intro r. rewrite Hlen2. apply Hlen1.
    + intros r [[<-|Hr]|Hr]; apply Hfid2.
      * right. exact Hfid1.
      * left. exact Hr.
      * right. apply Hkeep1. exact Hr.
Qed.

End HubProperties.

(** X11.  A filter whose subclass supplies a filter id emits events that are
    long enough to hold the two reserved fields.  Every emission succeeds;
    draining the output queue afterwards returns what was queued before
    followed by the emitted events in the order of emission, and leaves the
    queue empty, so that a second drain returns nothing; the input queue is
    not touched; and every emitted event carries the filter id in its
    filter-id field. *)
Theorem DeviceEventFilter_emit_then_drain
    (EID FID : nat) (counter : Type) (next : counter -> Z * counter)
    (filter_id : DeviceEventFilter -> hub_outcome Z) (fid : Z)
    (self : DeviceEventFilter) (h : store) (c : counter) (es : list ref) :
  (forall s, filter_id s = Done fid) ->
  (forall e, In e es ->
             (EID < List.length (h e))%nat /\ (FID < List.length (h e))%nat) ->
  exists self' h' c',
    emit_all EID FID counter next filter_id self h c es
      = (self', h', c', Done tt) /\
    snd (_removeOutputEvents self') = _output_events self ++ es /\
    snd (_removeOutputEvents (fst (_removeOutputEvents self'))) = [] /\
    _input_events (fst (_removeOutputEvents self')) = _input_events self /\
    (forall e, In e es -> nth_error (h' e) FID = Some (Num (inject_Z fid))).
Proof.
  intros Hfid Hv.
  destruct (emit_all_done EID FID counter next filter_id fid Hfid es self h c Hv)
    as (h' & c' & Hall & _ & Hf).
  eexists. exists h', c'. split; [exact Hall|]. cbn.
  repeat split. intros e He. apply Hf. left. exact He.
Qed.

Lemma DeviceEventFilter_emit_then_drain_witness :
  exists self' h' c',
    emit_all 3 10 Z (fun n => (n, n + 1)) (fun _ => Done 7)
      DeviceEventFilter_init mouse_store 100 [2; 0; 2]%nat
      = (self', h', c', Done tt) /\
    snd (_removeOutputEvents self') = [2; 0; 2]%nat /\
    nth_error (h' 0%nat) 10 = Some (Num (inject_Z 7)).
Proof.
  destruct (DeviceEventFilter_emit_then_drain 3 10 Z (fun n => (n, n + 1))
              (fun _ => Done 7) 7 DeviceEventFilter_init mouse_store 100
              [2; 0; 2]%nat (fun _ => eq_refl))
    as (self' & h' & c' & Hall & Hd & _ & _ & Hf).
  - cbn. intros e [<-|[<-|[<-|[]]]]; cbn; lia.
  - exists self', h', c'. split; [exact Hall|]. split; [exact Hd|].
    apply Hf. cbn. auto.
Defined.

(** X12.  On the base class itself, submitting an event raises the
    RuntimeError of the missing [process], after the event has been put on
    the input queue; and emitting an event raises the RuntimeError of the
    missing [filter_id], after an event id has been drawn from the counter
    and written into the event, without the event reaching the output
    queue. *)
Theorem DeviceEventFilter_base_class_raises
    (EID FID : nat) (counter : Type) (next : counter -> Z * counter)
    (self : DeviceEventFilter) (h : store) (c : counter) (e : ref) :
  (exists msg,
     _addInputEvent counter base_process self h c e
     = (mkDEF (_parent_device_type self) (_filter_key self)
              (_input_events self ++ [e]) (_output_events self)
              (_enabled self), h, c, RuntimeError msg)) /\
  ((EID < List.length (h e))%nat ->
   exists msg h',
     addOutputEvent EID FID counter next base_filter_id self h c e
     = (self, h', snd (next c), RuntimeError msg) /\
     nth_error (h' e) EID = Some (Num (inject_Z (fst (next c)))) /\
     forall r, r <> e -> h' r = h r).
Proof.
  split.
  - eexists. reflexivity.
  - intro He. unfold addOutputEvent. destruct (next c) as [id c1].
    pose proof He as He'. apply Nat.ltb_lt in He'. rewrite He'.
    cbn. eexists. eexists. split; [reflexivity|]. split.
    + unfold store_set. rewrite Nat.eqb_refl. apply list_set_same. exact He.
    + intros r Hr. unfold store_set. apply Nat.eqb_neq in Hr. rewrite Hr.
      reflexivity.
Qed.

Lemma DeviceEventFilter_base_class_raises_witness :
  exists msg h',
    addOutputEvent 3 10 Z (fun n => (n, n + 1)) base_filter_id
      DeviceEventFilter_init mouse_store 100 1%nat
    = (DeviceEventFilter_init, h', 101, RuntimeError msg) /\
    nth_error (h' 1%nat) 3 = Some (Num (inject_Z 100)).
Proof.
  destruct (proj2 (DeviceEventFilter_base_class_raises 3 10 Z
                     (fun n => (n, n + 1)) DeviceEventFilter_init
                     mouse_store 100 1%nat) ltac:(cbn; lia))
    as (msg & h' & Hadd & Hid & _).
  exists msg, h'. split; [exact Hadd|exact Hid].
Defined.

(** ** What every target keeps *)

Lemma last_known_snoc (styles : list string) (v : string) :
  last_known (styles ++ [v])
  = if String.eqb v "circles" || String.eqb v "cross" then Some v
    else last_known styles.
Proof. unfold last_known. rewrite fold_left_app. reflexivity. Qed.

Lemma set_style_contour (t : TargetStim) (v : string) (known : option string) :
  vertices (outer t) = "circle"%string ->
  vertices (inner t) = inner_contour known ->
  let t' := set_style t v in
  vertices (outer t') = "circle"%string /\
  vertices (inner t')
    = inner_contour (if String.eqb v "circles" || String.eqb v "cross"
                     then Some v else known) /\
  size (outer t') = size (outer t) /\ size (inner t') = size (inner t) /\
  lineWidth (outer t') = lineWidth (outer t) /\
  lineWidth (inner t') = lineWidth (inner t).
Proof.
  intros Ho Hi. unfold set_style.
  destruct (String.eqb_spec v "circles") as [->|Hc].
  - cbn. repeat split.
  - destruct (String.eqb_spec v "cross") as [->|Hx]; cbn; repeat split;
      assumption.
Qed.

(** The invariant of a target with the style history [styles]. *)
Lemma apply_ops_invariant (ops : list target_op) :
  forall (t : TargetStim) (styles : list string),
    vertices (outer t) = "circle"%string ->
    vertices (inner t) = inner_contour (last_known styles) ->
    fst (size (outer t)) = snd (size (outer t)) ->
    fst (size (inner t)) = snd (size (inner t)) ->
    let t' := apply_ops t ops in
    vertices (outer t') = "circle"%string /\
    vertices (inner t') = inner_contour (last_known (styles ++ styles_of ops)) /\
    fst (size (outer t')) = snd (size (outer t')) /\
    fst (size (inner t')) = snd (size (inner t')) /\
    lineWidth (outer t') = lineWidth (outer t) /\
    lineWidth (inner t') = lineWidth (inner t).
Proof.
  induction ops as [|op ops IH]; intros t styles Ho Hi Hso Hsi.
  - cbn. rewrite app_nil_r. repeat split; assumption.
  - unfold apply_ops. cbn [fold_left].
    assert (Hstep :
      vertices (outer (apply_op t op)) = "circle"%string /\
      vertices (inner (apply_op t op))
        = inner_contour (last_known (styles ++ styles_of [op])) /\
      fst (size (outer (apply_op t op))) = snd (size (outer (apply_op t op))) /\
      fst (size (inner (apply_op t op))) = snd (size (inner (apply_op t op))) /\
      lineWidth (outer (apply_op t op)) = lineWidth (outer t) /\
      lineWidth (inner (apply_op t op)) = lineWidth (inner t)).
    { destruct op as [v|f|r|r|c]; cbn [apply_op styles_of flat_map app];
        try rewrite app_nil_r.
      - destruct (set_style_contour t v _ Ho Hi) as (H1 & H2 & H3 & H4 & H5 & H6).
        rewrite last_known_snoc, H3, H4. repeat split; assumption.
      - unfold set_scale. destruct (Qeq_bool (scale t) 0);
          cbn; repeat split; assumption.
      - cbn. repeat split; assumption.
      - cbn. repeat split; assumption.
      - unfold set_foreColor.
        destruct (fillColor (inner t)); cbn;
          destruct (borderColor (inner t)); cbn; repeat split; assumption. }
    destruct Hstep as (H1 & H2 & H3 & H4 & H5 & H6).
    destruct (IH (apply_op t op) (styles ++ styles_of [op]) H1 H2 H3 H4)
      as (G1 & G2 & G3 & G4 & G5 & G6).
    fold (apply_ops (apply_op t op) ops).
    rewrite <- app_assoc in G2.
    assert (Es : styles_of [op] ++ styles_of ops = styles_of (op :: ops)).
    { unfold styles_of. cbn [flat_map]. rewrite app_nil_r. reflexivity. }
    rewrite Es in G2.
    repeat split; try assumption; congruence.
Qed.

(** X13.  Whatever is assigned to a constructed target (styles, scales,
    radii, fore colours, in any order), its outer shape stays a circle, its
    inner shape is the contour of the last recognized style assigned (the
    constructor's included; a circle if there was none), both shapes stay as
    wide as they are high, and the line widths stay those given at
    construction. *)
Theorem TargetStim_assignments_keep_shape
    (a : target_args) (t : TargetStim) (ops : list target_op) :
  TargetStim_init a = Return t ->
  let t' := apply_ops t ops in
  vertices (outer t') = "circle"%string /\
  vertices (inner t')
    = inner_contour (last_known (arg_style a :: styles_of ops)) /\
  fst (size (outer t')) = snd (size (outer t')) /\
  fst (size (inner t')) = snd (size (inner t')) /\
  lineWidth (outer t') = arg_lineWidth a /\
  lineWidth (inner t')
    = or_lineWidth (arg_innerLineWidth a) (arg_lineWidth a).
Proof.
  intros Hinit t'.
  destruct (init_lineWidths a t Hinit) as [Hlo Hli].
  unfold TargetStim_init in Hinit.
  destruct (arg_name a) as [nm|]; [|discriminate].
  injection Hinit as Ht.
  set (t0 := mkTarget _ _ None None) in Ht.
  destruct (set_style_contour t0 (arg_style a) None eq_refl eq_refl)
    as (H1 & H2 & H3 & H4 & _ & _).
  rewrite Ht in H1, H2, H3, H4.
  assert (H2' : vertices (inner t) = inner_contour (last_known [arg_style a])).
  { rewrite H2. reflexivity. }
  assert (Hso : fst (size (outer t)) = snd (size (outer t)))
    by (rewrite H3; reflexivity).
  assert (Hsi : fst (size (inner t)) = snd (size (inner t)))
    by (rewrite H4; reflexivity).
  destruct (apply_ops_invariant ops t [arg_style a] H1 H2' Hso Hsi)
    as (G1 & G2 & G3 & G4 & G5 & G6).
  fold t' in G1, G2, G3, G4, G5, G6. cbn [app] in G2.
  repeat split; try assumption; congruence.
Qed.

Lemma TargetStim_assignments_keep_shape_witness :
  exists t,
    TargetStim_init (default_args "target") = Return t /\
    vertices (inner (apply_ops t
                [SetStyle "cross"; SetScale 3; SetStyle "square";
                 SetForeColor None; SetRadius 1]))
    = "cross"%string.
Proof.
  eexists. split; [reflexivity|].
  match goal with
  | |- vertices (inner (apply_ops ?t ?ops)) = _ =>
      destruct (TargetStim_assignments_keep_shape
                  (default_args "target") t ops eq_refl)
        as (_ & H & _)
  end.
  exact H.
Defined.

(** ** The fore colour *)

(** X14.  Assigning the fore colour changes nothing but the two colours of
    the inner shape: each of them that is not [None] takes the value, and
    one that is [None] stays [None].  After [None] has been assigned, no
    later assignment of a fore colour changes the target. *)
Theorem set_foreColor_keeps_none (t : TargetStim) (value : option color) :
  let t' := set_foreColor t value in
  outer t' = outer t /\
  set_fillColor (set_borderColor (inner t') None) None
    = set_fillColor (set_borderColor (inner t) None) None /\
  fillColor (inner t')
    = match fillColor (inner t) with Some _ => value | None => None end /\
  borderColor (inner t')
    = match borderColor (inner t) with Some _ => value | None => None end /\
  _style t' = _style t /\ _scale t' = _scale t /\
  forall later,
    set_foreColor (set_foreColor t None) later = set_foreColor t None.
Proof.
  unfold set_foreColor.
  destruct t as [o [nm vs sz ps lw un fc bc] st sc].
  destruct fc, bc; cbn; repeat split.
Qed.
